(** * Font qualifier strings: a shallow embedding of [fontqualifiers.py]

    The module parses RISC OS font strings of the form
    [\F<id>\f<territory> <name>\E<id>\e<territory> <name>\M<6 integers>],
    merges a second string into a parsed one ([apply_fields]), renders the
    fields back to a string ([font_string]) and locates a field inside an
    unparsed string ([find_field]).

    Conventions of the embedding:
    - a Python [str] is a [string]; its characters are the code points
      0..255;
    - a Python [int] is a [Z]; a Python [float] is a binary64 [float];
    - an attribute that is [None], the [FontQualifierEmpty] placeholder or
      a value is a three-constructor [field];
    - a method that mutates [self] and may raise takes the object and
      returns the object as the raise (or the return) leaves it, together
      with the exception, if any. *)

From Stdlib Require Import ZArith List String Ascii Bool Lia Floats.
Import ListNotations.

Open Scope string_scope.
Open Scope Z_scope.

(** ** Python strings *)

Module PyStr.

(** The field separator, [chr(0x5c)]. *)
Definition backslash : ascii := ascii_of_nat 92.
Definition space : ascii := ascii_of_nat 32.
Definition newline : ascii := ascii_of_nat 10.

Definition code (c : ascii) : Z := Z.of_nat (nat_of_ascii c).

(** [s.split(sep)] for a one-character separator: never an empty list. *)
Fixpoint split (sep : ascii) (s : string) : list string :=
  match s with
  | EmptyString => [EmptyString]
  | String c r =>
      if Ascii.eqb c sep then EmptyString :: split sep r
      else match split sep r with
           | h :: t => String c h :: t
           | [] => [String c EmptyString]
           end
  end.

(** [sep.join(parts)]. *)
Fixpoint join (sep : ascii) (parts : list string) : string :=
  match parts with
  | [] => EmptyString
  | [p] => p
  | p :: rest => p ++ String sep (join sep rest)
  end.

(** [c in s]. *)
Fixpoint contains (c : ascii) (s : string) : bool :=
  match s with
  | EmptyString => false
  | String d r => Ascii.eqb d c || contains c r
  end.

(** [s.split(sep, 1)] when [sep in s]: the text before the first
    separator and the text after it. *)
Fixpoint split_once (sep : ascii) (s : string) : string * string :=
  match s with
  | EmptyString => (EmptyString, EmptyString)
  | String c r =>
      if Ascii.eqb c sep then (EmptyString, r)
      else let (a, b) := split_once sep r in (String c a, b)
  end.

(** [s.lstrip(c)]. *)
Fixpoint lstrip (c : ascii) (s : string) : string :=
  match s with
  | String d r => if Ascii.eqb d c then lstrip c r else s
  | EmptyString => EmptyString
  end.

(** [s[0] != c], for a non-empty [s]; an empty [s] has no [s[0]]. *)
Definition starts_with (c : ascii) (s : string) : bool :=
  match s with
  | String d _ => Ascii.eqb d c
  | EmptyString => false
  end.

Definition is_empty (s : string) : bool :=
  match s with EmptyString => true | _ => false end.

(** Every character satisfies [p]. *)
Fixpoint all (p : ascii -> bool) (s : string) : bool :=
  match s with
  | EmptyString => true
  | String c r => p c && all p r
  end.

Definition last_part (parts : list string) : string :=
  List.last parts EmptyString.

End PyStr.

(** ** The identifier pattern [^[\x21-\x7e]+$]

    [search] without [re.MULTILINE]: [^] matches at the start of the
    string only, and [$] matches at the end of the string and also just
    before a newline that is the last character of the string. *)

Module Re.

Definition in_class (c : ascii) : bool :=
  (33 <=? PyStr.code c) && (PyStr.code c <=? 126).

(** [[\x21-\x7e]*$] from the current position. The class never matches a
    newline, so the greedy run of class characters is the only place
    where [$] can be tried. *)
Fixpoint class_star_eol (s : string) : bool :=
  match s with
  | EmptyString => true
  | String c r =>
      if in_class c then class_star_eol r
      else Ascii.eqb c PyStr.newline && PyStr.is_empty r
  end.

Definition acceptable_identifiers_re_search (s : string) : bool :=
  match s with
  | EmptyString => false
  | String c r => in_class c && class_star_eol r
  end.

End Re.

(** ** Python integers: [int(str)] and [str(int)]

    CPython 3.11 and later refuse by default, with [ValueError], to read
    or to write an integer of more than 4300 decimal digits. [int] and
    [str] below have no such limit; the statements about written
    integers bound them instead (see [writable_territory]). *)

Module PyInt.

(** The characters [int()] skips around the number, among the code
    points 0..255: TAB, LF, VT, FF, CR, space, NEL and NBSP. *)
Definition is_space (c : ascii) : bool :=
  let n := PyStr.code c in
  ((9 <=? n) && (n <=? 13)) || (n =? 32) || (n =? 133) || (n =? 160).

Definition digit (c : ascii) : option Z :=
  let n := PyStr.code c in
  if (48 <=? n) && (n <=? 57) then Some (n - 48) else None.

Definition underscore : ascii := ascii_of_nat 95.

Fixpoint skip_spaces (s : string) : string :=
  match s with
  | String c r => if is_space c then skip_spaces r else s
  | EmptyString => EmptyString
  end.

(** The digits after the first one: [acc] is the value read so far and
    [after_digit] tells whether the previous character was a digit (an
    underscore is accepted between two digits only). What follows the
    digits must be white space up to the end. *)
Fixpoint digits (acc : Z) (after_digit : bool) (s : string) : option Z :=
  match s with
  | EmptyString => if after_digit then Some acc else None
  | String c r =>
      match digit c with
      | Some d => digits (10 * acc + d) true r
      | None =>
          if Ascii.eqb c underscore then
            if after_digit then digits acc false r else None
          else if after_digit && PyStr.is_empty (skip_spaces s)
               then Some acc else None
      end
  end.

Definition unsigned (s : string) : option Z :=
  match s with
  | String c r =>
      match digit c with
      | Some d => digits d true r
      | None => None
      end
  | EmptyString => None
  end.

(** [int(s)]: [None] stands for [ValueError]. *)
Definition int (s : string) : option Z :=
  match skip_spaces s with
  | String c r =>
      if Ascii.eqb c "-" then option_map Z.opp (unsigned r)
      else if Ascii.eqb c "+" then unsigned r
      else unsigned (String c r)
  | EmptyString => None
  end.

Definition digit_char (d : Z) : ascii := ascii_of_nat (Z.to_nat (48 + d)).

(** The decimal digits of a positive number, most significant first,
    in front of [acc]; [fuel] bounds the number of digits. *)
Fixpoint pos_digits (fuel : nat) (n : Z) (acc : string) : string :=
  match fuel with
  | O => acc
  | S fuel' =>
      let acc' := String (digit_char (n mod 10)) acc in
      if n <? 10 then acc' else pos_digits fuel' (n / 10) acc'
  end.

(** [str(n)], which is also what ['{}'.format(n)] and ['%i' % n] give. *)
Definition str (n : Z) : string :=
  match n with
  | Z0 => "0"
  | Zpos p => pos_digits (Pos.to_nat (Pos.size p)) n EmptyString
  | Zneg p => String "-" (pos_digits (Pos.to_nat (Pos.size p)) (Zpos p) EmptyString)
  end.

End PyInt.

(** ** Python floats *)

Module PyFloat.

(** [float(n)] for an [int] whose magnitude is below [2^63]; the parser
    only converts integers strictly between [-2^31] and [2^31], and the
    serializer only the constants 65536 and 1000. *)
Definition of_int (n : Z) : float :=
  match n with
  | Z0 => PrimFloat.of_uint63 (Uint63.of_Z 0)
  | Zpos _ => PrimFloat.of_uint63 (Uint63.of_Z n)
  | Zneg p => PrimFloat.opp (PrimFloat.of_uint63 (Uint63.of_Z (Zpos p)))
  end.

Inductive int_result :=
| IntOk (n : Z)
| IntOverflowError   (* int(inf) *)
| IntValueError.     (* int(nan) *)

(** [int(x)]: truncation toward zero. *)
Definition to_int (x : float) : int_result :=
  match Prim2SF x with
  | S754_zero _ => IntOk 0
  | S754_infinity _ => IntOverflowError
  | S754_nan => IntValueError
  | S754_finite neg m e =>
      let a := if 0 <=? e then Zpos m * 2 ^ e else Zpos m / 2 ^ (- e) in
      IntOk (if neg then - a else a)
  end.

End PyFloat.



(** ** Exceptions and attribute values *)

Inductive exn :=
| FontQualifiersBadStringError (msg : string)
| FontQualifiersBadMatrixError (msg : string)
| IndexError
| OverflowError
| ValueError.

Inductive result (A : Type) :=
| Ok (a : A)
| Raise (e : exn).
Arguments Ok {A} a.
Arguments Raise {A} e.

Definition bind {A B : Type} (r : result A) (k : A -> result B) : result B :=
  match r with
  | Ok a => k a
  | Raise e => Raise e
  end.

Notation "x <- r ;; k" := (bind r (fun x => k))
  (at level 61, r at next level, right associativity).

(** An attribute of the object: [None], the class [FontQualifierEmpty]
    used as a placeholder, or a value. *)
Inductive field (A : Type) :=
| PyNone
| FontQualifierEmpty
| Value (a : A).
Arguments PyNone {A}.
Arguments FontQualifierEmpty {A}.
Arguments Value {A} a.

Record FontQualifiers := mkFontQualifiers {
  fontid : field string;
  fontlocal : field (Z * string);
  encoding : field string;
  encodinglocal : field (Z * string);
  matrix : field (list float)
}.

(** The attributes as [__init__] sets them before it calls [parse]. *)
Definition fresh : FontQualifiers :=
  mkFontQualifiers PyNone PyNone PyNone PyNone PyNone.

Definition set_fontid (v : field string) (self : FontQualifiers) :=
  mkFontQualifiers v (fontlocal self) (encoding self) (encodinglocal self) (matrix self).
Definition set_fontlocal (v : field (Z * string)) (self : FontQualifiers) :=
  mkFontQualifiers (fontid self) v (encoding self) (encodinglocal self) (matrix self).
Definition set_encoding (v : field string) (self : FontQualifiers) :=
  mkFontQualifiers (fontid self) (fontlocal self) v (encodinglocal self) (matrix self).
Definition set_encodinglocal (v : field (Z * string)) (self : FontQualifiers) :=
  mkFontQualifiers (fontid self) (fontlocal self) (encoding self) v (matrix self).
Definition set_matrix (v : field (list float)) (self : FontQualifiers) :=
  mkFontQualifiers (fontid self) (fontlocal self) (encoding self) (encodinglocal self) v.

(** ['... '%s'' % (part,)]: the message, with the fragment in quotes at
    its end. *)
Definition in_quotes (message part : string) : string :=
  message ++ "'" ++ part ++ "'".

(** ** [parse] *)

(** [[int(value) for value in matrix_parts]]: the first [ValueError]
    ends the comprehension. *)
Fixpoint ints (parts : list string) : option (list Z) :=
  match parts with
  | [] => Some []
  | p :: rest =>
      match PyInt.int p with
      | None => None
      | Some v => option_map (cons v) (ints rest)
      end
  end.

(** [[value / 65536.0 if index < 4 else value / 1000.0
      for index, value in enumerate(values)]], from [index] on. *)
Fixpoint scale (index : nat) (values : list Z) : list float :=
  match values with
  | [] => []
  | value :: rest =>
      (if (index <? 4)%nat
       then PrimFloat.div (PyFloat.of_int value) 65536%float
       else PrimFloat.div (PyFloat.of_int value) 1000%float)
      :: scale (S index) rest
  end.

Definition two31 : Z := Z.shiftl 1 31.

(** The components of the matrix text as the count check sees them:
    leading spaces stripped, the text split on single spaces, and the
    last component popped when it is empty. *)
Definition matrix_components (part : string) : list string :=
  let matrix_parts := PyStr.split PyStr.space (PyStr.lstrip PyStr.space part) in
  if negb (Nat.eqb (List.length matrix_parts) 0)
     && PyStr.is_empty (PyStr.last_part matrix_parts)
  then List.removelast matrix_parts else matrix_parts.

(** The count check and the [try] block of the ['M'] qualifier, on the
    components that are left. *)
Definition matrix_values (part : string) (matrix_parts : list string)
  : result (list float) :=
  if negb (Nat.eqb (List.length matrix_parts) 6) then
    Raise (FontQualifiersBadMatrixError
             (in_quotes ("Cannot parse font matrix with "
                         ++ PyInt.str (Z.of_nat (List.length matrix_parts))
                         ++ " components in ") part))
  else
    match ints matrix_parts with
    | None =>
        Raise (FontQualifiersBadMatrixError
                 (in_quotes "Cannot parse font matrix values as integers in " part))
    | Some values =>
        if existsb (fun value => two31 <=? value) values then
          Raise (FontQualifiersBadMatrixError
                   (in_quotes "Cannot value too large in font matrix " part))
        else if existsb (fun value => value <=? - two31) values then
          Raise (FontQualifiersBadMatrixError
                   (in_quotes "Cannot value too large in font matrix " part))
        else Ok (scale 0 values)
    end.

(** The [else] branch of the ['M'] qualifier. *)
Definition parse_matrix (need_trailing_space_on_matrix : bool) (part : string)
  : result (list float) :=
  let part := PyStr.lstrip PyStr.space part in
  let matrix_parts := PyStr.split PyStr.space part in
  if negb (Nat.eqb (List.length matrix_parts) 0)
     && PyStr.is_empty (PyStr.last_part matrix_parts)
  then matrix_values part (List.removelast matrix_parts)
  else if need_trailing_space_on_matrix then
    Raise (FontQualifiersBadMatrixError
             (in_quotes "Cannot parse font matrix without trailing space in " part))
  else matrix_values part matrix_parts.

(** The [else] branch of the ['f'] and ['e'] qualifiers; [what] is
    ["name"] or ["encoding"] in the messages. *)
Definition parse_local (what part : string) : result (Z * string) :=
  if negb (PyStr.contains PyStr.space part) then
    Raise (FontQualifiersBadStringError
             (in_quotes ("Cannot parse font " ++ what ++ " qualifier in ") part))
  else
    let (territory, name) := PyStr.split_once PyStr.space part in
    match PyInt.int territory with
    | None =>
        Raise (FontQualifiersBadStringError
                 (in_quotes ("Cannot parse font " ++ what
                             ++ " qualifier with invalid territory in ") part))
    | Some territory => Ok (territory, name)
    end.

(** One turn of the loop [for part in parts[1:]]: the object as the turn
    leaves it, and the exception the turn raises, if any. *)
Definition parse_part (need_trailing_space_on_matrix allow_empty : bool)
  (part : string) (self : FontQualifiers) : FontQualifiers * option exn :=
  match part with
  | EmptyString => (self, Some IndexError)          (* part[0] *)
  | String qualifier part =>
      if Ascii.eqb qualifier "F" then
        if PyStr.is_empty part && allow_empty then
          (set_fontid FontQualifierEmpty self, None)
        else
          let self := set_fontid (Value part) self in
          if negb (Re.acceptable_identifiers_re_search part) then
            (self, Some (FontQualifiersBadStringError
                           (in_quotes "Invalid font name in " part)))
          else (self, None)
      else if Ascii.eqb qualifier "f" then
        if PyStr.is_empty part && allow_empty then
          (set_fontlocal FontQualifierEmpty self, None)
        else
          match parse_local "name" part with
          | Raise e => (self, Some e)
          | Ok v => (set_fontlocal (Value v) self, None)
          end
      else if Ascii.eqb qualifier "E" then
        if PyStr.is_empty part && allow_empty then
          (set_encoding FontQualifierEmpty self, None)
        else
          let self := set_encoding (Value part) self in
          if negb (Re.acceptable_identifiers_re_search part) then
            (self, Some (FontQualifiersBadStringError
                           (in_quotes "Invalid encoding name qualifier in " part)))
          else (self, None)
      else if Ascii.eqb qualifier "e" then
        if PyStr.is_empty part && allow_empty then
          (set_encodinglocal FontQualifierEmpty self, None)
        else
          match parse_local "encoding" part with
          | Raise e => (self, Some e)
          | Ok v => (set_encodinglocal (Value v) self, None)
          end
      else if Ascii.eqb qualifier "M" then
        if PyStr.is_empty part && allow_empty then
          (set_matrix FontQualifierEmpty self, None)
        else
          match parse_matrix need_trailing_space_on_matrix part with
          | Raise e => (self, Some e)
          | Ok m => (set_matrix (Value m) self, None)
          end
      else
        (self, Some (FontQualifiersBadStringError
                       (in_quotes "Cannot parse qualifier " (String qualifier EmptyString))))
  end.

Fixpoint parse_parts (need_trailing_space_on_matrix allow_empty : bool)
  (parts : list string) (self : FontQualifiers) : FontQualifiers * option exn :=
  match parts with
  | [] => (self, None)
  | part :: rest =>
      match parse_part need_trailing_space_on_matrix allow_empty part self with
      | (self', None) => parse_parts need_trailing_space_on_matrix allow_empty rest self'
      | raised => raised
      end
  end.

(** The field segments of a font string: a string that is empty or does
    not start with the separator gets ["\F"] in front, and the first part
    of the split, which is then empty, is dropped ([parts[1:]]). *)
Definition segments (font_string : string) : list string :=
  let font_string :=
    if PyStr.is_empty font_string || negb (PyStr.starts_with PyStr.backslash font_string)
    then String PyStr.backslash (String "F" font_string)
    else font_string in
  List.tl (PyStr.split PyStr.backslash font_string).

Definition parse (self : FontQualifiers) (font_string : string)
  (need_trailing_space_on_matrix allow_empty : bool) : FontQualifiers * option exn :=
  if PyStr.is_empty font_string && allow_empty then (self, None)
  else parse_parts need_trailing_space_on_matrix allow_empty (segments font_string) self.

(** [FontQualifiers(font_string, need_trailing_space_on_matrix, allow_empty)]:
    a new object, or the exception [parse] raised (and no object). *)
Definition init (font_string : string)
  (need_trailing_space_on_matrix allow_empty : bool) : result FontQualifiers :=
  match parse fresh font_string need_trailing_space_on_matrix allow_empty with
  | (self, None) => Ok self
  | (_, Some e) => Raise e
  end.

(** ** [apply_fields] *)

(** The local function [reduce] of [apply_fields]. *)
Definition reduce {A : Type} (current_value new_value : field A) : field A :=
  match new_value with
  | FontQualifierEmpty => PyNone
  | Value v => Value v
  | PyNone => current_value
  end.

(** The second string is parsed into an object of its own, [apply]; the
    five assignments to [self] come after the constructor has returned. *)
Definition apply_fields (self : FontQualifiers) (font_string : string)
  (need_trailing_space_on_matrix : bool) : FontQualifiers * option exn :=
  match init font_string need_trailing_space_on_matrix true with
  | Raise e => (self, Some e)
  | Ok apply =>
      let self := set_fontid (reduce (fontid self) (fontid apply)) self in
      let self := set_fontlocal (reduce (fontlocal self) (fontlocal apply)) self in
      let self := set_encoding (reduce (encoding self) (encoding apply)) self in
      let self := set_encodinglocal (reduce (encodinglocal self) (encodinglocal apply)) self in
      let self := set_matrix (reduce (matrix self) (matrix apply)) self in
      (self, None)
  end.

(** ** [font_string] *)

(** [int(self.matrix[index] * factor)]. *)
Definition matrix_item (m : list float) (index : nat) (factor : Z) : result Z :=
  match List.nth_error m index with
  | None => Raise IndexError
  | Some x =>
      match PyFloat.to_int (PrimFloat.mul x (PyFloat.of_int factor)) with
      | PyFloat.IntOk n => Ok n
      | PyFloat.IntOverflowError => Raise OverflowError
      | PyFloat.IntValueError => Raise ValueError
      end
  end.

(** ['{} {} {} {} {} {} '.format(...)]: the arguments are evaluated from
    left to right. *)
Definition matrix_text (m : list float) : result string :=
  a <- matrix_item m 0 65536 ;;
  b <- matrix_item m 1 65536 ;;
  c <- matrix_item m 2 65536 ;;
  d <- matrix_item m 3 65536 ;;
  e <- matrix_item m 4 1000 ;;
  f <- matrix_item m 5 1000 ;;
  Ok (PyInt.str a ++ " " ++ PyInt.str b ++ " " ++ PyInt.str c ++ " "
      ++ PyInt.str d ++ " " ++ PyInt.str e ++ " " ++ PyInt.str f ++ " ").

(** ['{} {}'.format(local[0], local[1])]. *)
Definition local_text (local : Z * string) : string :=
  PyInt.str (fst local) ++ " " ++ snd local.

(** The entries [fields] gets for one attribute: one entry when the
    attribute is neither [None] nor the placeholder. *)
Definition field_entry {A : Type} (qualifier : ascii) (text : A -> string)
  (v : field A) : list (ascii * string) :=
  match v with
  | Value a => [(qualifier, text a)]
  | _ => []
  end.

Definition matrix_entry (v : field (list float)) : result (list (ascii * string)) :=
  match v with
  | Value m => t <- matrix_text m ;; Ok [("M"%char, t)]
  | _ => Ok []
  end.

(** ['\\{}{}'.format(field[0], field[1])]. *)
Definition field_text (f : ascii * string) : string :=
  String PyStr.backslash (String (fst f) (snd f)).

Definition font_string (self : FontQualifiers) : result string :=
  m <- matrix_entry (matrix self) ;;
  let fields :=
    (field_entry "F" (fun s => s) (fontid self)
     ++ field_entry "f" local_text (fontlocal self)
     ++ field_entry "E" (fun s => s) (encoding self)
     ++ field_entry "e" local_text (encodinglocal self)
     ++ m)%list in
  match fields with
  | [(qualifier, text)] =>
      if Ascii.eqb qualifier "F" then Ok text
      else Ok (String.concat EmptyString (map field_text fields))
  | _ => Ok (String.concat EmptyString (map field_text fields))
  end.

(** ** [find_field] *)

(** The loop [for part in parts[1:]] of [find_field], entered with the
    running [offset]. *)
Fixpoint find_in_parts (wanted : ascii) (parts : list string) (offset : nat)
  : result (option nat) :=
  match parts with
  | [] => Ok None
  | part :: rest =>
      let offset := (offset + 2)%nat in
      match part with
      | EmptyString => Raise IndexError            (* part[0] *)
      | String qualifier _ =>
          if Ascii.eqb qualifier wanted then Ok (Some offset)
          else find_in_parts wanted rest (offset + (String.length part - 1))%nat
      end
  end.

Definition find_field (font_string : string) (wanted : ascii) : result (option nat) :=
  if PyStr.is_empty font_string then Ok None
  else if negb (PyStr.starts_with PyStr.backslash font_string) && Ascii.eqb wanted "F"
  then Ok (Some 0%nat)
  else
    let parts := PyStr.split PyStr.backslash font_string in
    find_in_parts wanted (List.tl parts) (String.length (List.hd EmptyString parts)).

(** ** Vocabulary of the statements *)

(** Every character lies in 0x21..0x7E. *)
Definition printable (s : string) : bool := PyStr.all Re.in_class s.

(** The test strings. *)
Definition bs : string := String PyStr.backslash EmptyString.
Definition homerton_latin1_zero : string :=
  bs ++ "FHomerton.Medium" ++ bs ++ "ELatin1" ++ bs ++ "M0 0 0 0 0 0".
Definition bare_homerton_latin1_zero : string :=
  "Homerton.Medium" ++ bs ++ "ELatin1" ++ bs ++ "M0 0 0 0 0 0".

Definition zero_matrix : list float :=
  [0%float; 0%float; 0%float; 0%float; 0%float; 0%float].

(** The base of the merge tests: font id, encoding and a zero matrix. *)
Definition homerton_base : FontQualifiers :=
  mkFontQualifiers (Value "Homerton.Medium") PyNone (Value "Latin1") PyNone
                   (Value zero_matrix).

(** The qualifier character of a segment. *)
Definition has_kind (qualifier : ascii) (segment : string) : bool :=
  PyStr.starts_with qualifier segment.

(** The last segment that carries the qualifier. *)
Definition last_of_kind (qualifier : ascii) (segs : list string) : option string :=
  List.find (has_kind qualifier) (List.rev segs).

(** The attribute a qualifier character stands for. *)
Inductive attribute :=
| Identifier (v : field string)
| Local (v : field (Z * string))
| Matrix (v : field (list float)).

Definition attribute_of (qualifier : ascii) (self : FontQualifiers) : option attribute :=
  if Ascii.eqb qualifier "F" then Some (Identifier (fontid self))
  else if Ascii.eqb qualifier "f" then Some (Local (fontlocal self))
  else if Ascii.eqb qualifier "E" then Some (Identifier (encoding self))
  else if Ascii.eqb qualifier "e" then Some (Local (encodinglocal self))
  else if Ascii.eqb qualifier "M" then Some (Matrix (matrix self))
  else None.

(** A segment parses on its own: one turn of the loop on a new object
    raises nothing. *)
Definition parses_alone (need_trailing_space_on_matrix allow_empty : bool)
  (segment : string) : Prop :=
  snd (parse_part need_trailing_space_on_matrix allow_empty segment fresh) = None.



(** A font id, an encoding and a matrix whose fifth component is 128004. *)
Definition offset_128004 : string :=
  bs ++ "FHomerton.Medium" ++ bs ++ "ELatin1" ++ bs ++ "M65536 0 0 65536 128004 0".
Definition offset_128003 : string :=
  bs ++ "FHomerton.Medium" ++ bs ++ "ELatin1" ++ bs ++ "M65536 0 0 65536 128003 0 ".
Definition offset_128002 : string :=
  bs ++ "FHomerton.Medium" ++ bs ++ "ELatin1" ++ bs ++ "M65536 0 0 65536 128002 0 ".

(** A font name followed by a line feed. *)
Definition homerton_newline : string :=
  "Homerton.Medium" ++ String PyStr.newline EmptyString.

(** What [join] puts after a part that is followed by [rest]. *)
Definition tail_text (sep : ascii) (rest : list string) : string :=
  match rest with
  | [] => EmptyString
  | _ => String sep (PyStr.join sep rest)
  end.

(** An attribute that holds a value, as opposed to [None] and to the
    placeholder. *)
Definition is_set {A : Type} (v : field A) : bool :=
  match v with Value _ => true | _ => false end.


(** The object [apply_fields] leaves when the second string parses to
    [apply]. *)
Definition merged_object (self apply : FontQualifiers) : FontQualifiers :=
  mkFontQualifiers
    (reduce (fontid self) (fontid apply))
    (reduce (fontlocal self) (fontlocal apply))
    (reduce (encoding self) (encoding apply))
    (reduce (encodinglocal self) (encodinglocal apply))
    (reduce (matrix self) (matrix apply)).

(** ** Vocabulary of the further properties *)

(** The attribute is the placeholder. *)
Definition is_placeholder {A : Type} (v : field A) : bool :=
  match v with FontQualifierEmpty => true | _ => false end.

(** No attribute of the object is the placeholder. *)
Definition no_placeholder (q : FontQualifiers) : Prop :=
  is_placeholder (fontid q) = false
  /\ is_placeholder (fontlocal q) = false
  /\ is_placeholder (encoding q) = false
  /\ is_placeholder (encodinglocal q) = false
  /\ is_placeholder (matrix q) = false.

(** What the pattern lets through: printable characters, with one line
    feed allowed at the very end. *)
Definition printable_line (s : string) : Prop :=
  printable s = true
  \/ exists t, s = t ++ String PyStr.newline EmptyString /\ printable t = true.

(** A property of the value of an attribute, when it has one. *)
Definition when_value {A : Type} (P : A -> Prop) (v : field A) : Prop :=
  forall a, v = Value a -> P a.

(** The matrix, when there is one, has six components; the font id and
    the encoding, when there are, pass the pattern. *)
Definition well_formed (q : FontQualifiers) : Prop :=
  when_value printable_line (fontid q)
  /\ when_value printable_line (encoding q)
  /\ when_value (fun m => List.length m = 6%nat) (matrix q).

(** The attribute [later] where it is not [None], [earlier] otherwise:
    what two assignments in a row leave. *)
Definition overlay {A : Type} (earlier later : field A) : field A :=
  match later with
  | PyNone => earlier
  | _ => later
  end.

Definition overlay_object (earlier later : FontQualifiers) : FontQualifiers :=
  mkFontQualifiers
    (overlay (fontid earlier) (fontid later))
    (overlay (fontlocal earlier) (fontlocal later))
    (overlay (encoding earlier) (encoding later))
    (overlay (encodinglocal earlier) (encodinglocal later))
    (overlay (matrix earlier) (matrix later)).

(** The attribute of the qualifier is there: neither [None] nor the
    attribute of an unknown qualifier. *)
Definition present (qualifier : ascii) (q : FontQualifiers) : bool :=
  match attribute_of qualifier q with
  | Some (Identifier PyNone) | Some (Local PyNone) | Some (Matrix PyNone) => false
  | Some _ => true
  | None => false
  end.

Definition is_some {A : Type} (o : option A) : bool :=
  match o with Some _ => true | None => false end.

(** An identifier the serializer can write and the parser read back:
    it passes the pattern and holds no separator. *)
Definition valid_identifier (s : string) : Prop :=
  Re.acceptable_identifiers_re_search s = true
  /\ PyStr.contains PyStr.backslash s = false.

(** The same with the pattern spelled out, and no line feed: not empty,
    printable, without a separator. *)
Definition plain_identifier (s : string) : Prop :=
  s <> EmptyString
  /\ printable s = true
  /\ PyStr.contains PyStr.backslash s = false.

(** A local name without a separator; the territory is any integer. *)
Definition valid_local (local : Z * string) : Prop :=
  PyStr.contains PyStr.backslash (snd local) = false.

(** An object without a matrix and without a placeholder, whose
    identifiers and local names can be written and read back. *)
Definition serializable (q : FontQualifiers) : Prop :=
  matrix q = PyNone
  /\ no_placeholder q
  /\ when_value valid_identifier (fontid q)
  /\ when_value valid_local (fontlocal q)
  /\ when_value valid_identifier (encoding q)
  /\ when_value valid_local (encodinglocal q).

(** The default of [sys.get_int_max_str_digits()]. *)
Definition int_max_str_digits : Z := 4300.

(** A territory the interpreter writes and reads back: at most 4300
    digits. *)
Definition writable_territory (local : Z * string) : Prop :=
  Z.abs (fst local) < 10 ^ int_max_str_digits.

(** A local name without a separator, with a territory that can be
    written. *)
Definition plain_local (local : Z * string) : Prop :=
  valid_local local /\ writable_territory local.

(** An object without a matrix and without a placeholder, with plain
    identifiers and plain local names. *)
Definition plain_object (q : FontQualifiers) : Prop :=
  matrix q = PyNone
  /\ no_placeholder q
  /\ when_value plain_identifier (fontid q)
  /\ when_value plain_local (fontlocal q)
  /\ when_value plain_identifier (encoding q)
  /\ when_value plain_local (encodinglocal q).

(** The identifiers and local names of the object can be written and
    read back. *)
Definition readable_texts (q : FontQualifiers) : Prop :=
  when_value valid_identifier (fontid q)
  /\ when_value valid_local (fontlocal q)
  /\ when_value valid_identifier (encoding q)
  /\ when_value valid_local (encodinglocal q).

(** The matrix comes from six integers strictly between [-2^31] and
    [2^31]: the first four divided by 65536, the last two by 1000. *)
Definition scaled_matrix (m : list float) : Prop :=
  exists values,
    m = scale 0 values
    /\ List.length values = 6%nat
    /\ Forall (fun v => - 2 ^ 31 < v < 2 ^ 31) values.

(** The six integers [font_string] writes for a matrix. *)
Definition written_integers (m : list float) : result (list Z) :=
  a <- matrix_item m 0 65536 ;;
  b <- matrix_item m 1 65536 ;;
  c <- matrix_item m 2 65536 ;;
  d <- matrix_item m 3 65536 ;;
  e <- matrix_item m 4 1000 ;;
  f <- matrix_item m 5 1000 ;;
  Ok [a; b; c; d; e; f].

(** Integers in a row, each followed by a space. *)
Fixpoint integers_text (values : list Z) : string :=
  match values with
  | [] => EmptyString
  | v :: rest => PyInt.str v ++ String PyStr.space (integers_text rest)
  end.

(** The segment a field of the serializer becomes in the string. *)
Definition segment_of (f : ascii * string) : string := String (fst f) (snd f).

(** ** The value a field text stands for

    Written after the claim's words, "the value of the last occurrence",
    from the text of the field alone and not from the loop of [parse]:
    an identifier stands for itself; a local name for the integer before
    its first space and the text after it; a matrix for its components
    read as integers and scaled; and an empty text, when empty fields
    are allowed, for the placeholder. *)

Definition carried_identifier (allow_empty : bool) (text : string) : field string :=
  if PyStr.is_empty text && allow_empty then FontQualifierEmpty else Value text.

Definition carried_local (allow_empty : bool) (text : string)
  : option (field (Z * string)) :=
  if PyStr.is_empty text && allow_empty then Some FontQualifierEmpty
  else
    let (territory, name) := PyStr.split_once PyStr.space text in
    option_map (fun t => Value (t, name)) (PyInt.int territory).

Definition carried_matrix (allow_empty : bool) (text : string)
  : option (field (list float)) :=
  if PyStr.is_empty text && allow_empty then Some FontQualifierEmpty
  else option_map (fun values => Value (scale 0 values))
                  (ints (matrix_components text)).

(** The attribute a field with this qualifier and this text stands
    for; [None] when the text has no reading or the qualifier is not one
    of the five. *)
Definition carried (allow_empty : bool) (qualifier : ascii) (text : string)
  : option attribute :=
  if Ascii.eqb qualifier "F" then Some (Identifier (carried_identifier allow_empty text))
  else if Ascii.eqb qualifier "f" then option_map Local (carried_local allow_empty text)
  else if Ascii.eqb qualifier "E" then Some (Identifier (carried_identifier allow_empty text))
  else if Ascii.eqb qualifier "e" then option_map Local (carried_local allow_empty text)
  else if Ascii.eqb qualifier "M" then option_map Matrix (carried_matrix allow_empty text)
  else None.

(** The string of the counterexample to the repeated fields: two font
    ids and a field of an unknown kind. *)
Definition two_font_ids_and_unknown : string :=
  bs ++ "FA" ++ bs ++ "FB" ++ bs ++ "X".

(** The text passes the identifier pattern. *)
Definition passes_pattern (s : string) : Prop :=
  Re.acceptable_identifiers_re_search s = true.

(** The font id and the encoding, when there are, pass the identifier
    pattern; the matrix, when there is one, has six components. *)
Definition pattern_formed (q : FontQualifiers) : Prop :=
  when_value passes_pattern (fontid q)
  /\ when_value passes_pattern (encoding q)
  /\ when_value (fun m => List.length m = 6%nat) (matrix q).

(** * Properties *)

(** ** Sample runs, as in the test suite *)

Example split_trailing :
  PyStr.split PyStr.space "a b c " = ["a"; "b"; "c"; EmptyString].
Proof. reflexivity. Qed.

Example split_double : PyStr.split PyStr.space "a  b" = ["a"; EmptyString; "b"].
Proof. reflexivity. Qed.

Example int_samples :
  map PyInt.int ["+5"; "-5"; "+-5"; "1_0"; "_1"; "1_"; "1__0"; "007"; "-0"; "- 5"; "-"; "0x10"; "5 "]
  = [Some 5; Some (-5); None; Some 10; None; None; None; Some 7; Some 0; None; None; None; Some 5].
Proof. reflexivity. Qed.

Example str_samples :
  map PyInt.str [0; 7; 10; -5; 128004; -2147483647; 1000]
  = ["0"; "7"; "10"; "-5"; "128004"; "-2147483647"; "1000"].
Proof. vm_compute. reflexivity. Qed.

Example test_01_empty :
  exists msg, init EmptyString false false = Raise (FontQualifiersBadStringError msg).
Proof. eexists. vm_compute. reflexivity. Qed.

Example test_16_elements_6 : init homerton_latin1_zero false false = Ok homerton_base.
Proof. vm_compute. reflexivity. Qed.

Example test_11_font_encoding_matrix :
  font_string homerton_base = Ok (homerton_latin1_zero ++ " ").
Proof. vm_compute. reflexivity. Qed.

Example test_23_fractions :
  option_map matrix
    (match init (bs ++ "M32768 16384 131072 98304 1000 500") false false with
     | Ok q => Some q | Raise _ => None end)
  = Some (Value [0.5%float; 0.25%float; 2%float; 1.5%float; 1%float; 0.5%float]).
Proof. vm_compute. reflexivity. Qed.

(** The offsets lose one unit where the product falls below the
    integer. *)
Example offsets_truncate :
  map (fun n => matrix_item (scale 4 [n]) 0 1000) [1000; 1001; 128004; 128003; - 1048572]
  = map Ok [1000; 1000; 128003; 128002; - 1048571].
Proof. vm_compute. reflexivity. Qed.

(** The scale factors are powers of two and come back as they were. *)
Example scales_exact :
  map (fun n => matrix_item (scale 0 [n]) 0 65536) [65536; - 32768; 1; 2147483647; - 2147483647]
  = map Ok [65536; - 32768; 1; 2147483647; - 2147483647].
Proof. vm_compute. reflexivity. Qed.

(** [parse] called on an object that already exists leaves the
    assignments made before the raise in place. *)
Example parse_partial_update :
  exists msg,
    parse homerton_base (bs ++ "FSelwyn" ++ bs ++ "X") false true
    = (set_fontid (Value "Selwyn") homerton_base,
       Some (FontQualifiersBadStringError msg)).
Proof. eexists. vm_compute. reflexivity. Qed.

(** ** The field locator on an empty segment *)

(** C3. [find_field] is meant to return an offset or [None] for every
    string, without raising. A string with an empty segment (here the
    string made of one separator) makes the loop read [part[0]] of an
    empty part, and the call ends in [IndexError]. *)
Theorem find_field_empty_segment_raises :
  find_field bs "F" = Raise IndexError
  /\ find_field ("Homerton.Medium" ++ bs) "E" = Raise IndexError.
Proof. split; vm_compute; reflexivity. Qed.

(** Without an empty segment before the match the locator does return. *)
Lemma find_in_parts_returns (wanted : ascii) (parts : list string) :
  Forall (fun p => p <> EmptyString) parts ->
  forall offset, exists r, find_in_parts wanted parts offset = Ok r.
Proof.
  induction 1 as [|p rest Hp _ IH]; intros offset; simpl.
  - now exists None.
  - destruct p as [|q r]; [congruence|].
    destruct (Ascii.eqb q wanted); [eexists; reflexivity | apply IH].
Qed.

(** The only exception of the locator is [IndexError]. *)
Lemma find_in_parts_raises_IndexError (wanted : ascii) (parts : list string) :
  forall offset e, find_in_parts wanted parts offset = Raise e -> e = IndexError.
Proof.
  induction parts as [|p rest IH]; intros offset e; simpl; [discriminate|].
  destruct p as [|q r]; [congruence|].
  destruct (Ascii.eqb q wanted); [discriminate | apply IH].
Qed.

(** ** The exceptions of [parse] *)

(** C4. Every failure of [parse] is meant to be one of the two errors of
    the module. A string with an empty segment, such as the string made of
    one separator, ends in [IndexError] instead, for every setting of the
    two flags, in the constructor and in [apply_fields] alike. *)
Theorem parse_empty_segment_raises_IndexError :
  forall need allow : bool,
    init bs need allow = Raise IndexError
    /\ apply_fields homerton_base bs need = (homerton_base, Some IndexError).
Proof. intros [] []; split; vm_compute; reflexivity. Qed.

(** A qualifier character outside [F f E e M] is refused with the
    character in the message. *)
Lemma parse_part_unknown_qualifier (need allow : bool) (q : ascii) (text : string)
  (self : FontQualifiers) :
  ~ In q ["F"; "f"; "E"; "e"; "M"]%char ->
  parse_part need allow (String q text) self
  = (self, Some (FontQualifiersBadStringError
                   ("Cannot parse qualifier '" ++ String q EmptyString ++ "'"))).
Proof.
  intros Hq. unfold parse_part.
  repeat match goal with
         | |- context [Ascii.eqb q ?c] =>
             destruct (Ascii.eqb_spec q c) as [->|_];
             [exfalso; apply Hq; simpl; tauto|]
         end.
  reflexivity.
Qed.

Lemma parse_local_raises (what part : string) (e : exn) :
  parse_local what part = Raise e -> exists msg, e = FontQualifiersBadStringError msg.
Proof.
  unfold parse_local. destruct (negb _); [intros [= <-]; eauto|].
  destruct (PyStr.split_once _ _) as [territory name].
  destruct (PyInt.int territory); [discriminate | intros [= <-]; eauto].
Qed.

Lemma matrix_values_raises (part : string) (matrix_parts : list string) (e : exn) :
  matrix_values part matrix_parts = Raise e ->
  exists msg, e = FontQualifiersBadMatrixError msg.
Proof.
  unfold matrix_values.
  repeat match goal with
         | |- context [if ?b then _ else _] => destruct b
         | |- context [match ints ?l with _ => _ end] => destruct (ints l)
         end; try discriminate; intros [= <-]; eauto.
Qed.

Lemma parse_matrix_raises (need : bool) (part : string) (e : exn) :
  parse_matrix need part = Raise e -> exists msg, e = FontQualifiersBadMatrixError msg.
Proof.
  unfold parse_matrix.
  destruct (_ && _); [apply matrix_values_raises|].
  destruct need; [intros [= <-]; eauto | apply matrix_values_raises].
Qed.

(** What one turn of the loop can raise. *)
Lemma parse_part_raises (need allow : bool) (part : string) (self self' : FontQualifiers)
  (e : exn) :
  parse_part need allow part self = (self', Some e) ->
  (part = EmptyString /\ e = IndexError)
  \/ (exists msg, e = FontQualifiersBadStringError msg)
  \/ (exists msg, e = FontQualifiersBadMatrixError msg).
Proof.
  destruct part as [|q text]; simpl.
  - intros [= _ <-]. now left.
  - repeat match goal with
           | |- context [if ?b then _ else _] => destruct b
           end;
      try (intros [= _ <-]; right; left; eauto; fail);
      try discriminate.
    + destruct (parse_local "name" text) eqn:E; [discriminate|].
      intros [= _ <-]. right; left. eapply parse_local_raises; eauto.
    + destruct (parse_local "encoding" text) eqn:E; [discriminate|].
      intros [= _ <-]. right; left. eapply parse_local_raises; eauto.
    + destruct (parse_matrix need text) eqn:E; [discriminate|].
      intros [= _ <-]. right; right. eapply parse_matrix_raises; eauto.
Qed.

(** The failures of [parse]: the two errors of the module, and
    [IndexError] when a segment is empty. *)
Lemma parse_raises (need allow : bool) (font_string : string)
  (self self' : FontQualifiers) (e : exn) :
  parse self font_string need allow = (self', Some e) ->
  (In EmptyString (segments font_string) /\ e = IndexError)
  \/ (exists msg, e = FontQualifiersBadStringError msg)
  \/ (exists msg, e = FontQualifiersBadMatrixError msg).
Proof.
  unfold parse. destruct (_ && _); [discriminate|].
  generalize (segments font_string) as parts. intros parts. revert self.
  induction parts as [|p rest IH]; intros self; simpl; [discriminate|].
  destruct (parse_part need allow p self) as [s1 [e1|]] eqn:E.
  - intros [= _ <-]. apply parse_part_raises in E.
    destruct E as [[-> ->]|E]; [left; split; [now left|reflexivity] | now right].
  - intros H. apply IH in H. destruct H as [[H ->]|H]; [left; split; [now right|reflexivity] | now right].
Qed.

(** ** The character set of identifiers *)

(** What the pattern accepts: a non-empty printable text, alone or
    followed by one line feed. *)
Lemma class_star_eol_spec (s : string) :
  Re.class_star_eol s = true ->
  printable s = true
  \/ exists t, s = t ++ String PyStr.newline EmptyString /\ printable t = true.
Proof.
  induction s as [|c r IH]; simpl; [now left|].
  unfold printable in *. simpl.
  destruct (Re.in_class c) eqn:Hc.
  - intros H. destruct (IH H) as [Hr|[t [-> Ht]]].
    + now left.
    + right. exists (String c t). simpl. now rewrite Hc, Ht.
  - intros H. apply andb_true_iff in H. destruct H as [Hn He].
    apply Ascii.eqb_eq in Hn. destruct r; [|discriminate].
    right. exists EmptyString. now subst.
Qed.

Lemma printable_class_star_eol (s : string) :
  printable s = true -> Re.class_star_eol s = true.
Proof.
  unfold printable. induction s as [|c r IH]; simpl; [reflexivity|].
  intros H. apply andb_true_iff in H. destruct H as [-> Hr]. auto.
Qed.

(** C9. Every character of a parsed font id is meant to lie in
    0x21..0x7E. The pattern ends in [$], which also matches just before a
    final line feed, so a name followed by a line feed is accepted and
    stored with the line feed (0x0A) in it, by the constructor and by
    [apply_fields]. *)
Theorem parse_accepts_trailing_newline :
  init homerton_newline false false
  = Ok (set_fontid (Value homerton_newline) fresh)
  /\ apply_fields homerton_base homerton_newline false
     = (set_fontid (Value homerton_newline) homerton_base, None)
  /\ printable homerton_newline = false.
Proof. repeat split; vm_compute; reflexivity. Qed.

(** ** Serializing twice *)

(** C2. Serializing, parsing and serializing again is meant to give the
    first serialization back. The two offsets of the matrix are stored as
    [value / 1000.0] and written as [int(x * 1000)], which truncates: the
    offset 128004 is written as 128003, and 128003, parsed again, is
    written as 128002. The matrix text does end in a space each time. *)
Theorem font_string_not_idempotent :
  exists qs qs',
    init offset_128004 false false = Ok qs
    /\ font_string qs = Ok offset_128003
    /\ init offset_128003 false false = Ok qs'
    /\ font_string qs' = Ok offset_128002
    /\ offset_128003 <> offset_128002.
Proof.
  do 2 eexists.
  split; [vm_compute; reflexivity|].
  split; [vm_compute; reflexivity|].
  split; [vm_compute; reflexivity|].
  split; [vm_compute; reflexivity|].
  vm_compute. discriminate.
Qed.

(** ** Strings, [split] and [join] *)

Lemma append_assoc (a b c : string) : (a ++ b) ++ c = a ++ (b ++ c).
Proof. induction a as [|x a IH]; simpl; [reflexivity | now rewrite IH]. Qed.

Lemma append_empty_r (a : string) : a ++ EmptyString = a.
Proof. induction a as [|x a IH]; simpl; [reflexivity | now rewrite IH]. Qed.

Lemma length_append (a b : string) :
  String.length (a ++ b) = (String.length a + String.length b)%nat.
Proof. induction a as [|x a IH]; simpl; [reflexivity | now rewrite IH]. Qed.

Lemma split_cons (sep : ascii) (s : string) :
  exists h t, PyStr.split sep s = h :: t.
Proof.
  induction s as [|c r [h [t IH]]]; simpl; [now eauto|].
  destruct (Ascii.eqb c sep); [now eauto | rewrite IH; now eauto].
Qed.

Lemma join_cons (sep : ascii) (p : string) (rest : list string) :
  PyStr.join sep (p :: rest) = p ++ tail_text sep rest.
Proof. destruct rest; simpl; [now rewrite append_empty_r | reflexivity]. Qed.

Lemma join_split (sep : ascii) (s : string) :
  PyStr.join sep (PyStr.split sep s) = s.
Proof.
  induction s as [|c r IH]; [reflexivity|]. simpl PyStr.split.
  destruct (split_cons sep r) as [h [t E]]. rewrite E in *.
  destruct (Ascii.eqb_spec c sep) as [->|_].
  - change (PyStr.join sep (EmptyString :: h :: t))
      with (String sep (PyStr.join sep (h :: t))).
    now rewrite IH.
  - rewrite join_cons in *. cbn [append]. now rewrite IH.
Qed.

Lemma split_no_sep (sep : ascii) (s p : string) :
  In p (PyStr.split sep s) -> PyStr.contains sep p = false.
Proof.
  revert p. induction s as [|c r IH]; intros p; simpl.
  - intros [<-|[]]. reflexivity.
  - destruct (split_cons sep r) as [h [t E]]. rewrite E in *.
    destruct (Ascii.eqb_spec c sep) as [->|Hc].
    + intros [<-|H]; [reflexivity | now apply IH].
    + intros [<-|H].
      * simpl. apply Ascii.eqb_neq in Hc. rewrite Hc. apply IH. now left.
      * apply IH. now right.
Qed.

Lemma split_without_sep (sep : ascii) (p : string) :
  PyStr.contains sep p = false -> PyStr.split sep p = [p].
Proof.
  induction p as [|c r IH]; simpl; [reflexivity|].
  intros H. apply orb_false_iff in H. destruct H as [-> Hr]. now rewrite IH.
Qed.

Lemma split_append_sep (sep : ascii) (p r : string) :
  PyStr.contains sep p = false ->
  PyStr.split sep (p ++ String sep r) = p :: PyStr.split sep r.
Proof.
  induction p as [|c p IH]; simpl.
  - now rewrite Ascii.eqb_refl.
  - intros H. apply orb_false_iff in H. destruct H as [-> Hr]. now rewrite IH.
Qed.

Lemma split_join (sep : ascii) (p : string) (rest : list string) :
  Forall (fun q => PyStr.contains sep q = false) (p :: rest) ->
  PyStr.split sep (PyStr.join sep (p :: rest)) = p :: rest.
Proof.
  revert p. induction rest as [|q rest IH]; intros p H.
  - inversion H. now apply split_without_sep.
  - inversion H as [|? ? Hp Hrest]; subst.
    change (PyStr.join sep (p :: q :: rest))
      with (p ++ String sep (PyStr.join sep (q :: rest))).
    rewrite split_append_sep by assumption. now rewrite IH.
Qed.

Lemma join_app (sep : ascii) (h : string) (before : list string) (x : string)
  (after : list string) :
  PyStr.join sep (h :: before ++ x :: after)
  = PyStr.join sep (h :: before) ++ String sep (x ++ tail_text sep after).
Proof.
  revert h. induction before as [|b before IH]; intros h.
  - simpl app. rewrite <- join_cons. reflexivity.
  - change (PyStr.join sep (h :: (b :: before) ++ x :: after))
      with (h ++ String sep (PyStr.join sep (b :: before ++ x :: after))).
    rewrite IH.
    change (PyStr.join sep (h :: b :: before))
      with (h ++ String sep (PyStr.join sep (b :: before))).
    rewrite append_assoc. reflexivity.
Qed.

Lemma tail_text_boundary (sep : ascii) (rest : list string) :
  tail_text sep rest = EmptyString \/ PyStr.starts_with sep (tail_text sep rest) = true.
Proof. destruct rest; simpl; [now left | right; apply Ascii.eqb_refl]. Qed.

(** ** The field locator *)

(** The loop returns the offset it was entered with, plus one separator
    and the length of every part it passes, plus the separator and the
    qualifier of the part it stops at. *)
Lemma find_in_parts_found (wanted : ascii) (parts : list string) :
  forall offset off,
    find_in_parts wanted parts offset = Ok (Some off) ->
    exists before text after,
      parts = (before ++ String wanted text :: after)%list
      /\ Forall (fun p => has_kind wanted p = false) before
      /\ off = (offset + list_sum (map (fun p => S (String.length p)) before) + 2)%nat.
Proof.
  induction parts as [|p rest IH]; intros offset off; simpl; [discriminate|].
  destruct p as [|q r]; [discriminate|].
  destruct (Ascii.eqb_spec q wanted) as [->|Hq].
  - intros [= <-]. exists [], r, rest. simpl. repeat split; [constructor | lia].
  - intros H. apply IH in H. destruct H as (before & text & after & -> & Hb & ->).
    exists (String q r :: before), text, after. repeat split.
    + constructor; [|assumption]. simpl. now apply Ascii.eqb_neq.
    + simpl. lia.
Qed.

Lemma length_join (sep : ascii) (h : string) (before : list string) :
  String.length (PyStr.join sep (h :: before))
  = (String.length h + list_sum (map (fun p => S (String.length p)) before))%nat.
Proof.
  revert h. induction before as [|b before IH]; intros h.
  - simpl. lia.
  - change (PyStr.join sep (h :: b :: before))
      with (h ++ String sep (PyStr.join sep (b :: before))).
    rewrite length_append. cbn [String.length]. rewrite IH. simpl. lia.
Qed.

(** C8. The offsets of the test suite, and in general: the offset
    [find_field] returns is the length of what precedes the text of the
    matched segment in the string. That text runs up to the next
    separator or the end of the string. The matched segment is the bare
    font name at offset 0, or the first segment introduced by the
    separator and the wanted character. *)
Theorem find_field_offset :
  find_field homerton_latin1_zero "F" = Ok (Some 2%nat)
  /\ find_field homerton_latin1_zero "E" = Ok (Some 19%nat)
  /\ find_field homerton_latin1_zero "M" = Ok (Some 27%nat)
  /\ find_field homerton_latin1_zero "X" = Ok None
  /\ find_field bare_homerton_latin1_zero "F" = Ok (Some 0%nat)
  /\ find_field bare_homerton_latin1_zero "E" = Ok (Some 17%nat)
  /\ forall (s : string) (wanted : ascii) (off : nat),
      find_field s wanted = Ok (Some off) ->
      exists pre text post,
        s = pre ++ text ++ post
        /\ String.length pre = off
        /\ PyStr.contains PyStr.backslash text = false
        /\ (post = EmptyString \/ PyStr.starts_with PyStr.backslash post = true)
        /\ ((off = 0%nat /\ wanted = "F"%char
             /\ PyStr.starts_with PyStr.backslash s = false)
            \/ exists head,
                pre = head ++ String PyStr.backslash (String wanted EmptyString)
                /\ Forall (fun seg => has_kind wanted seg = false)
                          (List.tl (PyStr.split PyStr.backslash head))).
Proof.
  do 6 (split; [vm_compute; reflexivity|]).
  intros s wanted off. unfold find_field.
  destruct (PyStr.is_empty s); [discriminate|].
  pose proof (join_split PyStr.backslash s) as Hjoin.
  pose proof (split_no_sep PyStr.backslash s) as Hsep.
  destruct (split_cons PyStr.backslash s) as [h [t E]]. rewrite E in *.
  destruct (negb (PyStr.starts_with PyStr.backslash s) && Ascii.eqb wanted "F") eqn:Hbare.
  - intros [= <-]. apply andb_true_iff in Hbare. destruct Hbare as [Hs Hw].
    apply negb_true_iff in Hs. apply Ascii.eqb_eq in Hw.
    exists EmptyString, h, (tail_text PyStr.backslash t).
    rewrite join_cons in Hjoin. simpl.
    repeat split; auto using tail_text_boundary.
    apply Hsep. now left.
  - simpl. intros H. apply find_in_parts_found in H.
    destruct H as (before & text & after & -> & Hb & ->).
    rewrite join_app in Hjoin.
    exists (PyStr.join PyStr.backslash (h :: before)
            ++ String PyStr.backslash (String wanted EmptyString)),
      text, (tail_text PyStr.backslash after).
    repeat split.
    + rewrite <- Hjoin at 1. rewrite !append_assoc. reflexivity.
    + rewrite length_append, length_join. simpl. lia.
    + assert (Ht : PyStr.contains PyStr.backslash (String wanted text) = false).
      { apply Hsep. right. apply in_or_app. right. now left. }
      simpl in Ht. now apply orb_false_iff in Ht.
    + apply tail_text_boundary.
    + right. exists (PyStr.join PyStr.backslash (h :: before)). split; [reflexivity|].
      rewrite split_join; [exact Hb|].
      apply Forall_forall. intros q Hq. apply Hsep.
      destruct Hq as [<-|Hq]; [now left | right; apply in_or_app; now left].
Qed.

Lemma find_field_offset_witness :
  exists pre text post,
    homerton_latin1_zero = pre ++ text ++ post
    /\ String.length pre = 19%nat
    /\ PyStr.contains PyStr.backslash text = false
    /\ (post = EmptyString \/ PyStr.starts_with PyStr.backslash post = true).
Proof.
  destruct (proj2 (proj2 (proj2 (proj2 (proj2 (proj2 find_field_offset)))))
              homerton_latin1_zero "E"%char 19%nat)
    as (pre & text & post & Hs & Hlen & Htext & Hpost & _).
  - vm_compute. reflexivity.
  - exists pre, text, post. repeat split; assumption.
Defined.

(** ** The merge *)


Lemma apply_fields_ok (self apply : FontQualifiers) (S : string) (need : bool) :
  init S need true = Ok apply ->
  apply_fields self S need = (merged_object self apply, None).
Proof. unfold apply_fields. intros ->. reflexivity. Qed.

Lemma apply_fields_raise (self : FontQualifiers) (S : string) (need : bool) (e : exn) :
  init S need true = Raise e ->
  apply_fields self S need = (self, Some e).
Proof. unfold apply_fields. intros ->. reflexivity. Qed.



(** C7. When the constructor called by [apply_fields] raises, the call
    raises the same exception and the object is as it was before the
    call; when [apply_fields] returns, the object differs from the one
    before the call in the five attributes at most, each being the
    [reduce] of the old attribute and the parsed one. *)
Theorem apply_fields_all_or_nothing (B : FontQualifiers) (S : string) (need : bool) :
  (forall e, init S need true = Raise e -> apply_fields B S need = (B, Some e))
  /\ (forall e, snd (apply_fields B S need) = Some e -> fst (apply_fields B S need) = B)
  /\ (snd (apply_fields B S need) = None ->
      exists O, init S need true = Ok O
                /\ fst (apply_fields B S need) = merged_object B O).
Proof.
  split; [|split].
  - intros e. apply apply_fields_raise.
  - intros e. destruct (init S need true) as [O|e'] eqn:E.
    + rewrite (apply_fields_ok B O S need E). discriminate.
    + now rewrite (apply_fields_raise B S need e' E).
  - destruct (init S need true) as [O|e'] eqn:E.
    + rewrite (apply_fields_ok B O S need E). intros _. now exists O.
    + rewrite (apply_fields_raise B S need e' E). discriminate.
Qed.

Lemma apply_fields_all_or_nothing_witness :
  apply_fields homerton_base (bs ++ "FSelwyn" ++ bs ++ "X") false
  = (homerton_base,
     Some (FontQualifiersBadStringError "Cannot parse qualifier 'X'")).
Proof.
  apply (proj1 (apply_fields_all_or_nothing homerton_base
                  (bs ++ "FSelwyn" ++ bs ++ "X") false)).
  vm_compute. reflexivity.
Defined.

(** ** Bare font names *)

Lemma printable_acceptable (S : string) :
  S <> EmptyString -> printable S = true ->
  Re.acceptable_identifiers_re_search S = true.
Proof.
  destruct S as [|c r]; [congruence|]. intros _. unfold printable. simpl.
  intros H. apply andb_true_iff in H. destruct H as [-> Hr].
  now apply printable_class_star_eol.
Qed.

Lemma segments_bare (S : string) :
  PyStr.contains PyStr.backslash S = false ->
  segments S = [String "F" S].
Proof.
  intros H. unfold segments.
  assert (Hs : PyStr.starts_with PyStr.backslash S = false).
  { destruct S as [|c r]; [reflexivity|]. simpl in *.
    now apply orb_false_iff in H. }
  rewrite Hs, orb_true_r.
  simpl. now rewrite (split_without_sep _ _ H).
Qed.

(** C6, as stated, fails: a printable string that does not start with
    the separator may hold one further on (0x5C is a printable
    character), and what follows it is a field of its own. The empty
    string, which has no character outside 0x21..0x7E and does not start
    with the separator, is refused. *)
Lemma bare_name_with_separator_inside :
  ~ (forall S : string,
        printable S = true ->
        PyStr.starts_with PyStr.backslash S = false ->
        exists q, init S false false = Ok q /\ fontid q = Value S)
  /\ (printable ("Homerton.Medium" ++ bs ++ "ELatin1") = true
      /\ PyStr.starts_with PyStr.backslash ("Homerton.Medium" ++ bs ++ "ELatin1") = false
      /\ init ("Homerton.Medium" ++ bs ++ "ELatin1") false false
         = Ok (mkFontQualifiers (Value "Homerton.Medium") PyNone (Value "Latin1")
                                PyNone PyNone))
  /\ (printable EmptyString = true
      /\ PyStr.starts_with PyStr.backslash EmptyString = false
      /\ init EmptyString false false
         = Raise (FontQualifiersBadStringError "Invalid font name in ''")).
Proof.
  split; [|repeat split; vm_compute; reflexivity].
  intros H.
  destruct (H ("Homerton.Medium" ++ bs ++ "ELatin1") eq_refl eq_refl) as [q [Hq Hf]].
  vm_compute in Hq. injection Hq as <-. vm_compute in Hf. discriminate.
Qed.

(** C6, amended. A non-empty string of characters in 0x21..0x7E that
    holds no separator parses, whatever the flags, to an object whose
    font id is the string and whose other attributes are [None]; and an
    object in which the font id is the only attribute with a value
    serializes to the font id itself, with nothing in front. *)
Theorem bare_font_name :
  (forall (S : string) (need allow : bool),
      S <> EmptyString ->
      printable S = true ->
      PyStr.contains PyStr.backslash S = false ->
      init S need allow = Ok (set_fontid (Value S) fresh))
  /\ (forall (q : FontQualifiers) (S : string),
         fontid q = Value S ->
         is_set (fontlocal q) = false ->
         is_set (encoding q) = false ->
         is_set (encodinglocal q) = false ->
         is_set (matrix q) = false ->
         font_string q = Ok S).
Proof.
  split.
  - intros S need allow Hne Hp Hsep. unfold init, parse.
    assert (He : PyStr.is_empty S = false) by (destruct S; [congruence | reflexivity]).
    rewrite He, segments_bare by assumption. simpl.
    rewrite He. simpl. now rewrite printable_acceptable.
  - intros [fid fl enc el m] S. simpl. intros -> Hfl Henc Hel Hm.
    unfold font_string. simpl.
    destruct fl; try discriminate; destruct enc; try discriminate;
      destruct el; try discriminate; destruct m; try discriminate; reflexivity.
Qed.

Lemma bare_font_name_witness :
  init "Homerton.Medium" false false = Ok (set_fontid (Value "Homerton.Medium") fresh)
  /\ font_string (set_fontid (Value "Homerton.Medium") fresh) = Ok "Homerton.Medium".
Proof.
  split.
  - apply (proj1 bare_font_name); [discriminate | reflexivity | reflexivity].
  - apply (proj2 bare_font_name); reflexivity.
Defined.

(** ** The matrix field *)



Lemma two31_value : two31 = 2 ^ 31.
Proof. reflexivity. Qed.





Lemma parse_part_matrix (need allow : bool) (text : string) (self : FontQualifiers) :
  text <> EmptyString ->
  parse_part need allow (String "M" text) self
  = match parse_matrix need text with
    | Raise e => (self, Some e)
    | Ok m => (set_matrix (Value m) self, None)
    end.
Proof.
  intros H. destruct text as [|c r]; [congruence | reflexivity].
Qed.



(** ** Repeated fields *)

Ltac split_on_qualifier q :=
  destruct (Ascii.eqb_spec q "F") as [->|?];
  [|destruct (Ascii.eqb_spec q "f") as [->|?];
    [|destruct (Ascii.eqb_spec q "E") as [->|?];
      [|destruct (Ascii.eqb_spec q "e") as [->|?];
        [|destruct (Ascii.eqb_spec q "M") as [->|?]]]]].

Ltac case_conditions :=
  repeat match goal with
         | |- context [if ?b then _ else _] => destruct b eqn:?
         | |- context [match parse_local ?w ?t with _ => _ end] =>
             destruct (parse_local w t) eqn:?
         | |- context [match parse_matrix ?n ?t with _ => _ end] =>
             destruct (parse_matrix n t) eqn:?
         end.

Ltac case_branches :=
  repeat match goal with
         | |- context [if PyStr.is_empty ?t && ?a then _ else _] =>
             destruct (PyStr.is_empty t && a) eqn:?
         | |- context [if negb ?b then _ else _] => destruct b eqn:?; cbn [negb]
         | |- context [match parse_local ?w ?t with _ => _ end] =>
             destruct (parse_local w t) eqn:?
         | |- context [match parse_matrix ?n ?t with _ => _ end] =>
             destruct (parse_matrix n t) eqn:?
         end.

Section Loop.

(** The two flags are the same in every turn of the loop. *)
Variables need allow : bool.

(** Whether a turn of the loop raises, and what it raises, does not
    depend on the object. *)
Lemma parse_part_raise_independent (seg : string)
  (self other : FontQualifiers) :
  snd (parse_part need allow seg self) = snd (parse_part need allow seg other).
Proof.
  destruct seg as [|q text]; [reflexivity|]. unfold parse_part.
  case_conditions; reflexivity.
Qed.

(** A turn that raises nothing assigns the attribute of its qualifier,
    with a value that does not depend on the object, and leaves the other
    attributes as they are. *)
Lemma parse_part_assigns (seg : string) (self : FontQualifiers) :
  parses_alone need allow seg ->
  forall k,
    attribute_of k (fst (parse_part need allow seg self))
    = if has_kind k seg
      then attribute_of k (fst (parse_part need allow seg fresh))
      else attribute_of k self.
Proof.
  unfold parses_alone. destruct seg as [|q text]; [discriminate|].
  unfold has_kind, PyStr.starts_with.
  intros Hp k. rewrite (Ascii.eqb_sym q k). revert Hp.
  split_on_qualifier q.
  6:{ rewrite parse_part_unknown_qualifier by (simpl; intuition congruence).
      discriminate. }
  all: unfold parse_part; simpl; case_branches; simpl; intros Hp;
    try discriminate Hp; clear Hp; unfold attribute_of;
    split_on_qualifier k; try reflexivity;
    repeat match goal with
           | H : _ <> _ :> ascii |- _ => apply Ascii.eqb_neq in H; rewrite H
           end; reflexivity.
Qed.

Lemma find_app {A : Type} (f : A -> bool) (l1 l2 : list A) :
  List.find f (l1 ++ l2)
  = match List.find f l1 with Some x => Some x | None => List.find f l2 end.
Proof.
  induction l1 as [|x l1 IH]; simpl; [reflexivity|].
  destruct (f x); [reflexivity | exact IH].
Qed.

Lemma last_of_kind_cons (k : ascii) (p : string) (rest : list string) :
  last_of_kind k (p :: rest)
  = match last_of_kind k rest with
    | Some seg => Some seg
    | None => if has_kind k p then Some p else None
    end.
Proof. unfold last_of_kind. simpl. rewrite find_app. simpl. reflexivity. Qed.

Lemma last_of_kind_exists (k : ascii) (segs : list string) :
  (1 <= List.length (List.filter (has_kind k) segs))%nat ->
  exists seg, last_of_kind k segs = Some seg.
Proof.
  intros H. unfold last_of_kind.
  destruct (List.find (has_kind k) (List.rev segs)) as [seg|] eqn:E; [eauto|].
  exfalso. destruct (List.filter (has_kind k) segs) as [|x l] eqn:F; [simpl in H; lia|].
  assert (Hx : In x (List.filter (has_kind k) segs)) by (rewrite F; now left).
  apply filter_In in Hx. destruct Hx as [Hx Hk].
  pose proof (find_none _ _ E x (proj1 (in_rev segs x) Hx)). congruence.
Qed.

(** The loop over segments that all parse on their own: nothing is
    raised, and each attribute ends as the last segment of its qualifier
    sets it, or as it was when no segment carries the qualifier. *)
Lemma parse_parts_last (segs : list string) :
  Forall (parses_alone need allow) segs ->
  forall self,
    snd (parse_parts need allow segs self) = None
    /\ forall k,
        attribute_of k (fst (parse_parts need allow segs self))
        = match last_of_kind k segs with
          | Some seg => attribute_of k (fst (parse_part need allow seg fresh))
          | None => attribute_of k self
          end.
Proof.
  induction 1 as [|p rest Hp _ IH]; intros self.
  - split; [reflexivity | intros k; reflexivity].
  - simpl. pose proof (parse_part_raise_independent p self fresh) as Hr.
    pose proof (parse_part_assigns p self Hp) as Ha.
    unfold parses_alone in Hp. rewrite Hp in Hr.
    destruct (parse_part need allow p self) as [self1 r]. simpl in Hr, Ha. subst r.
    destruct (IH self1) as [IH1 IH2]. split; [exact IH1|].
    intros k. rewrite IH2, last_of_kind_cons.
    destruct (last_of_kind k rest); [reflexivity|].
    rewrite Ha. destruct (has_kind k p); reflexivity.
Qed.

(** A parse that raises nothing went through segments that all parse on
    their own. *)
Lemma parse_parts_ok_alone (segs : list string) :
  forall self,
    snd (parse_parts need allow segs self) = None ->
    Forall (parses_alone need allow) segs.
Proof.
  induction segs as [|p rest IH]; intros self; [constructor|]. simpl.
  pose proof (parse_part_raise_independent p self fresh) as Hr.
  destruct (parse_part need allow p self) as [self1 [e|]]; simpl in *.
  - discriminate.
  - intros H. constructor; [now symmetry | now apply (IH self1)].
Qed.

Lemma parse_local_carried (what text : string) (v : Z * string) :
  parse_local what text = Ok v ->
  (let (territory, name) := PyStr.split_once PyStr.space text in
   option_map (fun t => Value (t, name)) (PyInt.int territory)) = Some (Value v).
Proof.
  unfold parse_local. destruct (negb _); [discriminate|].
  destruct (PyStr.split_once PyStr.space text) as [territory name].
  destruct (PyInt.int territory) as [t|]; [|discriminate]. now intros [= <-].
Qed.

Lemma matrix_values_carried (part : string) (components : list string) (m : list float) :
  matrix_values part components = Ok m ->
  option_map (fun values => Value (scale 0 values)) (ints components) = Some (Value m).
Proof.
  unfold matrix_values. destruct (negb _); [discriminate|].
  destruct (ints components) as [values|]; [|discriminate].
  repeat match goal with
         | |- context [if ?b then _ else _] => destruct b; [discriminate|]
         end.
  now intros [= <-].
Qed.

Lemma parse_matrix_carried (text : string) (m : list float) :
  parse_matrix need text = Ok m ->
  option_map (fun values => Value (scale 0 values)) (ints (matrix_components text))
  = Some (Value m).
Proof.
  unfold parse_matrix, matrix_components.
  destruct (_ && _); [apply matrix_values_carried|].
  destruct need; [discriminate | apply matrix_values_carried].
Qed.

(** A segment that parses on its own leaves, on a new object, the
    attribute its text stands for. *)
Lemma parse_part_carries (k : ascii) (text : string) :
  parses_alone need allow (String k text) ->
  attribute_of k (fst (parse_part need allow (String k text) fresh))
  = carried allow k text.
Proof.
  unfold parses_alone. split_on_qualifier k.
  6:{ rewrite parse_part_unknown_qualifier by (simpl; intuition congruence).
      discriminate. }
  all: unfold parse_part, carried, carried_identifier, carried_local, carried_matrix;
    simpl; destruct (PyStr.is_empty text && allow); simpl; [reflexivity|].
  - destruct (Re.acceptable_identifiers_re_search text); simpl;
      [reflexivity | discriminate].
  - destruct (parse_local "name" text) as [v|e] eqn:E; [|discriminate].
    intros _. simpl. now rewrite (parse_local_carried _ _ _ E).
  - destruct (Re.acceptable_identifiers_re_search text); simpl;
      [reflexivity | discriminate].
  - destruct (parse_local "encoding" text) as [v|e] eqn:E; [|discriminate].
    intros _. simpl. now rewrite (parse_local_carried _ _ _ E).
  - destruct (parse_matrix need text) as [m|e] eqn:E; [|discriminate].
    intros _. simpl. now rewrite (parse_matrix_carried _ _ E).
Qed.

(** C10, amended. When a qualifier character appears in more than one
    segment of the string and every segment of the string (not only the
    segments with that qualifier) parses on its own, the constructor
    returns an object, and its attribute for that qualifier is what the
    text of the last segment with the qualifier stands for: the
    identifier itself, the territory and name, the scaled matrix, or
    the placeholder for an empty text where that is allowed. Each later
    assignment overwrites the earlier ones. *)
Theorem repeated_field_last_wins (S : string) (k : ascii)
  (repeated : (2 <= List.length (List.filter (has_kind k) (segments S)))%nat)
  (each_parses : Forall (parses_alone need allow) (segments S)) :
  exists q text,
    init S need allow = Ok q
    /\ last_of_kind k (segments S) = Some (String k text)
    /\ attribute_of k q = carried allow k text
    /\ present k q = true.
Proof.
  assert (He : PyStr.is_empty S = false).
  { destruct S; [|reflexivity]. exfalso. revert repeated. clear.
    change (segments EmptyString) with ["F"]. cbn [List.filter].
    destruct (has_kind k "F"); simpl; lia. }
  destruct (last_of_kind_exists k (segments S)) as [seg Hseg]; [lia|].
  destruct (parse_parts_last (segments S) each_parses fresh) as [Hok Hlast].
  specialize (Hlast k). rewrite Hseg in Hlast.
  assert (Hfound : In seg (segments S) /\ has_kind k seg = true).
  { unfold last_of_kind in Hseg. apply find_some in Hseg.
    destruct Hseg as [Hin Hkind]. split; [now apply in_rev | assumption]. }
  destruct Hfound as [Hin Hkind].
  pose proof (proj1 (Forall_forall _ _) each_parses seg Hin) as Halone.
  destruct seg as [|k' text]; [discriminate|].
  unfold has_kind in Hkind. simpl in Hkind. apply Ascii.eqb_eq in Hkind. subst k'.
  unfold init, parse. rewrite He. cbn [andb].
  destruct (parse_parts need allow (segments S) fresh) as [q r].
  cbn [fst snd] in Hok, Hlast. subst r.
  exists q, text. split; [reflexivity|]. split; [exact Hseg|]. split.
  - rewrite Hlast. now apply parse_part_carries.
  - unfold present. rewrite Hlast. revert Halone. clear.
    unfold parses_alone. split_on_qualifier k.
    6:{ rewrite parse_part_unknown_qualifier by (simpl; intuition congruence).
        discriminate. }
    all: unfold parse_part; simpl; case_branches; simpl; intros Hp;
      try discriminate Hp; reflexivity.
Qed.

(** The same conclusion from a parse that succeeded: the segments then
    all parse on their own. *)
Lemma parsed_field_is_last (S : string) (q : FontQualifiers) :
  S <> EmptyString ->
  init S need allow = Ok q ->
  Forall (parses_alone need allow) (segments S)
  /\ forall k seg,
      last_of_kind k (segments S) = Some seg ->
      attribute_of k q = attribute_of k (fst (parse_part need allow seg fresh)).
Proof.
  intros Hne. unfold init, parse.
  assert (He : PyStr.is_empty S = false) by (destruct S; [congruence | reflexivity]).
  rewrite He. cbn [andb].
  destruct (parse_parts need allow (segments S) fresh) as [q' [e|]] eqn:E;
    [discriminate|]. intros [= ->].
  assert (Hall : Forall (parses_alone need allow) (segments S)).
  { apply (parse_parts_ok_alone (segments S) fresh). now rewrite E. }
  split; [exact Hall|]. intros k seg Hseg.
  destruct (parse_parts_last (segments S) Hall fresh) as [_ Hlast].
  specialize (Hlast k). rewrite E, Hseg in Hlast. exact Hlast.
Qed.

End Loop.

Lemma repeated_field_last_wins_witness :
  exists q text,
    init (bs ++ "FHomerton.Medium" ++ bs ++ "ELatin1" ++ bs ++ "FSelwyn") false false
    = Ok q
    /\ last_of_kind "F" (segments (bs ++ "FHomerton.Medium" ++ bs ++ "ELatin1"
                                      ++ bs ++ "FSelwyn")) = Some (String "F" text)
    /\ attribute_of "F" q = carried false "F" text
    /\ present "F" q = true.
Proof.
  apply (repeated_field_last_wins false false
           (bs ++ "FHomerton.Medium" ++ bs ++ "ELatin1" ++ bs ++ "FSelwyn") "F").
  - vm_compute. lia.
  - repeat constructor.
Defined.

(** C10, as stated, fails: the font id is given twice and each of the
    two fields parses on its own, but a third field of an unknown kind
    makes the whole parse fail. *)
Lemma repeated_field_other_segment_fails :
  ~ (forall (S : string) (k : ascii),
        (2 <= List.length (List.filter (has_kind k) (segments S)))%nat ->
        Forall (parses_alone false false) (List.filter (has_kind k) (segments S)) ->
        exists q, init S false false = Ok q)
  /\ List.filter (has_kind "F") (segments two_font_ids_and_unknown) = ["FA"; "FB"]
  /\ Forall (parses_alone false false) ["FA"; "FB"]
  /\ init two_font_ids_and_unknown false false
     = Raise (FontQualifiersBadStringError "Cannot parse qualifier 'X'").
Proof.
  split; [|split; [vm_compute; reflexivity
                  |split; [repeat constructor | vm_compute; reflexivity]]].
  intros H. destruct (H two_font_ids_and_unknown "F"%char) as [q Hq].
  - vm_compute. lia.
  - repeat constructor.
  - vm_compute in Hq. discriminate.
Qed.

(** The character set that does hold for a parsed font id: printable
    characters, with one line feed allowed at the very end. *)
Lemma parsed_fontid_characters (S : string) (need allow : bool) (q : FontQualifiers)
  (v : string) :
  init S need allow = Ok q ->
  fontid q = Value v ->
  printable v = true
  \/ exists t, v = t ++ String PyStr.newline EmptyString /\ printable t = true.
Proof.
  intros Hq Hv.
  destruct S as [|c r].
  { destruct allow; vm_compute in Hq; [|discriminate].
    injection Hq as <-. discriminate. }
  destruct (parsed_field_is_last need allow (String c r) q) as [Hall Hlast];
    [discriminate | assumption |].
  destruct (parse_parts_last need allow (segments (String c r)) Hall fresh) as [_ Hk].
  specialize (Hk "F"%char).
  assert (Hinit : fst (parse_parts need allow (segments (String c r)) fresh) = q).
  { revert Hq. unfold init, parse. cbn [PyStr.is_empty andb].
    destruct (parse_parts need allow (segments (String c r)) fresh) as [q' [e|]];
      [discriminate | now intros [= ->]]. }
  rewrite Hinit in Hk.
  destruct (last_of_kind "F" (segments (String c r))) as [seg|] eqn:Hseg.
  2:{ cbn in Hk. rewrite Hv in Hk. discriminate. }
  assert (Hin : In seg (segments (String c r)) /\ has_kind "F" seg = true).
  { unfold last_of_kind in Hseg. apply find_some in Hseg.
    destruct Hseg as [Hin Hkind]. split; [now apply in_rev | assumption]. }
  destruct Hin as [Hin Hkind].
  pose proof (proj1 (Forall_forall _ _) Hall seg Hin) as Halone.
  destruct seg as [|k text]; [discriminate|].
  apply Ascii.eqb_eq in Hkind. subst k.
  unfold parses_alone in Halone. revert Halone Hk. unfold parse_part. simpl.
  destruct (PyStr.is_empty text && allow).
  - intros _. cbn. rewrite Hv. discriminate.
  - destruct (Re.acceptable_identifiers_re_search text) eqn:Hre; simpl;
      [|discriminate].
    intros _. cbn. rewrite Hv. intros [= ->].
    destruct text as [|d text]; [discriminate|]. simpl in Hre.
    apply andb_true_iff in Hre. destruct Hre as [Hd Hre].
    destruct (class_star_eol_spec text Hre) as [Hp|[t [-> Ht]]].
    + left. unfold printable in *. simpl. now rewrite Hd.
    + right. exists (String d t). split; [reflexivity|].
      unfold printable in *. simpl. now rewrite Hd.
Qed.

Example repeated_font_id :
  init (bs ++ "FHomerton.Medium" ++ bs ++ "ELatin1" ++ bs ++ "FSelwyn") false false
  = Ok (mkFontQualifiers (Value "Selwyn") PyNone (Value "Latin1") PyNone PyNone).
Proof. vm_compute. reflexivity. Qed.

(** ** The trailing space of the matrix text *)

Lemma append_keeps_trailing_space (a b : string) :
  (exists t, b = t ++ " ") -> exists t', a ++ b = t' ++ " ".
Proof. intros [t ->]. exists (a ++ t). now rewrite append_assoc. Qed.

Lemma cons_keeps_trailing_space (c : ascii) (b : string) :
  (exists t, b = t ++ " ") -> exists t', String c b = t' ++ " ".
Proof. intros [t ->]. now exists (String c t). Qed.

Lemma matrix_text_trailing_space (m : list float) (t : string) :
  matrix_text m = Ok t -> exists t', t = t' ++ " ".
Proof.
  unfold matrix_text, bind.
  repeat match goal with
         | |- context [match matrix_item ?l ?i ?f with _ => _ end] =>
             destruct (matrix_item l i f); [|discriminate]
         end.
  intros [= <-].
  do 5 (apply append_keeps_trailing_space; apply cons_keeps_trailing_space).
  apply append_keeps_trailing_space. now exists EmptyString.
Qed.

Lemma concat_field_text_last (l : list (ascii * string)) (x : ascii * string) :
  String.concat EmptyString (map field_text (l ++ [x]))
  = String.concat EmptyString (map field_text l) ++ field_text x.
Proof.
  induction l as [|y l IH]; [reflexivity|].
  destruct l as [|z l].
  - reflexivity.
  - change (String.concat EmptyString (map field_text ((y :: z :: l) ++ [x])))
      with (field_text y
            ++ String.concat EmptyString (map field_text ((z :: l) ++ [x]))).
    rewrite IH.
    change (String.concat EmptyString (map field_text (y :: z :: l)))
      with (field_text y ++ String.concat EmptyString (map field_text (z :: l))).
    now rewrite append_assoc.
Qed.

(** X16. Whatever the other attributes, the string of an object with a
    matrix ends in a space. *)
Lemma font_string_matrix_trailing_space (q : FontQualifiers) (m : list float)
  (s : string) :
  matrix q = Value m -> font_string q = Ok s -> exists s', s = s' ++ " ".
Proof.
  intros Hm. unfold font_string. rewrite Hm. simpl matrix_entry.
  destruct (matrix_text m) as [t|e] eqn:Ht; [|discriminate]. simpl bind.
  destruct (matrix_text_trailing_space m t Ht) as [t' ->].
  rewrite !app_assoc.
  set (l := (_ ++ field_entry "e" local_text (encodinglocal q))%list).
  assert (Hs : forall x, String.concat EmptyString (map field_text (l ++ [("M"%char, x ++ " ")]))
                    = (String.concat EmptyString (map field_text l)
                       ++ String PyStr.backslash (String "M" x)) ++ " ").
  { intros x. rewrite concat_field_text_last. unfold field_text at 2. simpl fst. simpl snd.
    rewrite append_assoc. reflexivity. }
  specialize (Hs t').
  destruct l as [|[qa ta] [|b l]]; intros [= <-]; eexists; exact Hs.
Qed.

(** * Further properties of the code *)

(** ** Invariants of the loop of [parse] *)

(** What every turn that raises nothing keeps, the loop keeps. *)
Lemma parse_parts_invariant (need allow : bool) (P : FontQualifiers -> Prop) :
  (forall seg self self',
      P self -> parse_part need allow seg self = (self', None) -> P self') ->
  forall segs self self',
    P self -> parse_parts need allow segs self = (self', None) -> P self'.
Proof.
  intros Hstep. induction segs as [|p rest IH]; intros self self' HP; simpl.
  - now intros [= <-].
  - destruct (parse_part need allow p self) as [self1 [e|]] eqn:E; [discriminate|].
    intros H. eapply IH; [|exact H]. eapply Hstep; eauto.
Qed.

Lemma init_invariant (need allow : bool) (P : FontQualifiers -> Prop) :
  (forall seg self self',
      P self -> parse_part need allow seg self = (self', None) -> P self') ->
  P fresh ->
  forall S q, init S need allow = Ok q -> P q.
Proof.
  intros Hstep Hfresh S q. unfold init, parse.
  destruct (PyStr.is_empty S && allow).
  - now intros [= <-].
  - destruct (parse_parts need allow (segments S) fresh) as [q' [e|]] eqn:E;
      [discriminate|]. intros [= <-].
    eapply parse_parts_invariant; eauto.
Qed.

Ltac turn_cases :=
  match goal with
  | |- context [parse_part _ _ ?seg _] =>
      destruct seg as [|?q ?text]; [discriminate|]; unfold parse_part
  end;
  repeat match goal with
         | |- context [if Ascii.eqb ?a ?b then _ else _] => destruct (Ascii.eqb a b)
         | |- context [if PyStr.is_empty ?t && ?a then _ else _] =>
             destruct (PyStr.is_empty t && a) eqn:?
         | |- context [if negb ?b then _ else _] => destruct b eqn:?; cbn [negb]
         | |- context [match parse_local ?w ?t with _ => _ end] =>
             destruct (parse_local w t) eqn:?
         | |- context [match parse_matrix ?n ?t with _ => _ end] =>
             destruct (parse_matrix n t) eqn:?
         end; try discriminate.

Lemma parse_part_no_placeholder (need : bool) (seg : string) (self self' : FontQualifiers) :
  no_placeholder self ->
  parse_part need false seg self = (self', None) ->
  no_placeholder self'.
Proof.
  unfold no_placeholder. intros (H1 & H2 & H3 & H4 & H5). turn_cases;
    try (rewrite andb_false_r in *; discriminate);
    intros [= <-]; simpl; repeat split; assumption.
Qed.

(** X4. Without [allow_empty] the constructor never leaves the
    placeholder in an attribute. *)
Theorem init_without_allow_empty_no_placeholder (S : string) (need : bool)
  (q : FontQualifiers) :
  init S need false = Ok q -> no_placeholder q.
Proof.
  apply (init_invariant need false no_placeholder).
  - intros seg self self'. apply parse_part_no_placeholder.
  - repeat split.
Qed.

Lemma init_without_allow_empty_no_placeholder_witness : no_placeholder homerton_base.
Proof.
  apply (init_without_allow_empty_no_placeholder homerton_latin1_zero false).
  vm_compute. reflexivity.
Defined.

Lemma ints_length (parts : list string) :
  forall values, ints parts = Some values -> List.length values = List.length parts.
Proof.
  induction parts as [|p rest IH]; simpl; intros values.
  - now intros [= <-].
  - destruct (PyInt.int p); [|discriminate].
    destruct (ints rest) as [vs|]; [|discriminate]. simpl. intros [= <-].
    simpl. now rewrite (IH vs eq_refl).
Qed.

Lemma scale_length (values : list Z) :
  forall index, List.length (scale index values) = List.length values.
Proof.
  induction values as [|v rest IH]; intros index; simpl; [reflexivity|].
  now rewrite IH.
Qed.

Lemma matrix_values_six (part : string) (matrix_parts : list string) (m : list float) :
  matrix_values part matrix_parts = Ok m -> List.length m = 6%nat.
Proof.
  unfold matrix_values.
  destruct (Nat.eqb_spec (List.length matrix_parts) 6) as [Hlen|]; [|discriminate].
  cbn [negb]. destruct (ints matrix_parts) as [values|] eqn:Hints; [|discriminate].
  repeat match goal with
         | |- context [if ?b then _ else _] => destruct b; [discriminate|]
         end.
  intros [= <-]. now rewrite scale_length, (ints_length _ _ Hints).
Qed.

Lemma parse_matrix_six (need : bool) (part : string) (m : list float) :
  parse_matrix need part = Ok m -> List.length m = 6%nat.
Proof.
  unfold parse_matrix. destruct (_ && _); [apply matrix_values_six|].
  destruct need; [discriminate | apply matrix_values_six].
Qed.

Lemma acceptable_printable_line (s : string) :
  Re.acceptable_identifiers_re_search s = true -> printable_line s.
Proof.
  destruct s as [|c r]; [discriminate|]. simpl. intros H.
  apply andb_true_iff in H. destruct H as [Hc Hr]. unfold printable_line.
  destruct (class_star_eol_spec r Hr) as [Hp|[t [-> Ht]]].
  - left. unfold printable in *. simpl. now rewrite Hc.
  - right. exists (String c t). split; [reflexivity|].
    unfold printable in *. simpl. now rewrite Hc.
Qed.

Lemma parse_part_well_formed (need allow : bool) (seg : string)
  (self self' : FontQualifiers) :
  well_formed self ->
  parse_part need allow seg self = (self', None) ->
  well_formed self'.
Proof.
  unfold well_formed, when_value. intros (H1 & H2 & H3). turn_cases;
    intros [= <-]; simpl; repeat split; try assumption;
    intros ? Hv;
    first [ discriminate Hv
          | injection Hv as <-;
            solve [ now apply acceptable_printable_line
                  | eapply parse_matrix_six; eassumption ] ].
Qed.

Lemma fresh_well_formed : well_formed fresh.
Proof. repeat split; intros a; discriminate. Qed.

Lemma init_well_formed (S : string) (need allow : bool) (q : FontQualifiers) :
  init S need allow = Ok q -> well_formed q.
Proof.
  apply (init_invariant need allow well_formed).
  - intros seg self self'. apply parse_part_well_formed.
  - apply fresh_well_formed.
Qed.

(** X5. The font id and the encoding of a parsed object are made of
    characters in 0x21..0x7E, with one line feed allowed as the last
    character and nowhere else. *)
Theorem parsed_identifiers_characters (S : string) (need allow : bool)
  (q : FontQualifiers) :
  init S need allow = Ok q ->
  (forall v, fontid q = Value v -> printable_line v)
  /\ (forall v, encoding q = Value v -> printable_line v).
Proof.
  intros Hq. destruct (init_well_formed S need allow q Hq) as (H1 & H2 & _).
  split; assumption.
Qed.

Lemma parsed_identifiers_characters_witness :
  printable_line "Homerton.Medium" /\ printable_line "Latin1".
Proof.
  destruct (parsed_identifiers_characters homerton_latin1_zero false false homerton_base)
    as [Hf He]; [vm_compute; reflexivity|].
  split; [apply Hf | apply He]; reflexivity.
Defined.

(** ** Invariants of [apply_fields] *)

Lemma reduce_no_placeholder {A : Type} (current new : field A) :
  is_placeholder current = false -> is_placeholder (reduce current new) = false.
Proof. destruct new; simpl; auto. Qed.

Lemma reduce_when_value {A : Type} (P : A -> Prop) (current new : field A) :
  when_value P current -> when_value P new -> when_value P (reduce current new).
Proof.
  unfold when_value. destruct new; simpl; auto. discriminate.
Qed.

Lemma parse_part_pattern_formed (need allow : bool) (seg : string)
  (self self' : FontQualifiers) :
  pattern_formed self ->
  parse_part need allow seg self = (self', None) ->
  pattern_formed self'.
Proof.
  unfold pattern_formed, when_value, passes_pattern. intros (H1 & H2 & H3). turn_cases;
    intros [= <-]; simpl; refine (conj _ (conj _ _)); try assumption;
    intros ? Hv;
    first [ discriminate Hv
          | injection Hv as <-;
            solve [ assumption
                  | eapply parse_matrix_six; eassumption ] ].
Qed.

Lemma init_pattern_formed (S : string) (need allow : bool) (q : FontQualifiers) :
  init S need allow = Ok q -> pattern_formed q.
Proof.
  apply (init_invariant need allow pattern_formed).
  - intros seg self self'. apply parse_part_pattern_formed.
  - refine (conj _ (conj _ _)); intros a Hv; discriminate Hv.
Qed.

(** X7. [apply_fields] keeps what the constructor establishes: when it
    returns, an object without a placeholder is still without one, and
    an object whose font id and encoding pass the identifier pattern and
    whose matrix has six components is still so, whether the attributes
    come from the object or from the second string. *)
Theorem apply_fields_keeps_invariants (B B' : FontQualifiers) (S : string) (need : bool) :
  apply_fields B S need = (B', None) ->
  (no_placeholder B -> no_placeholder B')
  /\ (pattern_formed B -> pattern_formed B').
Proof.
  unfold apply_fields. destruct (init S need true) as [O|e] eqn:E; [|discriminate].
  intros [= <-]. pose proof (init_pattern_formed S need true O E) as (O1 & O2 & O3).
  split.
  - intros (H1 & H2 & H3 & H4 & H5). unfold no_placeholder. simpl.
    repeat split; now apply reduce_no_placeholder.
  - intros (H1 & H2 & H3). unfold pattern_formed. simpl.
    refine (conj _ (conj _ _)); now apply reduce_when_value.
Qed.

Lemma apply_fields_keeps_invariants_witness :
  no_placeholder (mkFontQualifiers (Value "Selwyn") PyNone (Value "Latin1") PyNone
                                   (Value zero_matrix))
  /\ pattern_formed (mkFontQualifiers (Value "Selwyn") PyNone (Value "Latin1") PyNone
                                      (Value zero_matrix)).
Proof.
  assert (Hrun : apply_fields homerton_base "Selwyn" false
                 = (mkFontQualifiers (Value "Selwyn") PyNone (Value "Latin1") PyNone
                                     (Value zero_matrix), None))
    by (vm_compute; reflexivity).
  destruct (apply_fields_keeps_invariants homerton_base _ "Selwyn" false Hrun)
    as [Hn Hp].
  split.
  - apply Hn. unfold no_placeholder. simpl. tauto.
  - apply Hp. unfold pattern_formed, when_value, passes_pattern. simpl.
    refine (conj _ (conj _ _)); intros a Hv; injection Hv as <-; reflexivity.
Defined.

(** ** The two flags *)

Lemma parse_parts_transfer (need allow need' allow' : bool) :
  (forall seg self self',
      parse_part need allow seg self = (self', None) ->
      parse_part need' allow' seg self = (self', None)) ->
  forall segs self self',
    parse_parts need allow segs self = (self', None) ->
    parse_parts need' allow' segs self = (self', None).
Proof.
  intros Hstep. induction segs as [|p rest IH]; intros self self'; simpl; [auto|].
  destruct (parse_part need allow p self) as [self1 [e|]] eqn:E; [discriminate|].
  rewrite (Hstep p self self1 E). apply IH.
Qed.

Lemma parse_part_allow_empty (need : bool) (seg : string) (self self' : FontQualifiers) :
  parse_part need false seg self = (self', None) ->
  parse_part need true seg self = (self', None).
Proof.
  destruct seg as [|q [|c r]]; [discriminate| |intros H; exact H].
  unfold parse_part. simpl.
  repeat match goal with
         | |- context [if Ascii.eqb ?a ?b then _ else _] => destruct (Ascii.eqb a b)
         end; discriminate.
Qed.

(** X8. A string that the constructor accepts without [allow_empty]
    gives the same object with [allow_empty]: the flag only matters for
    strings with an empty field, which are refused without it. *)
Theorem allow_empty_keeps_accepted_strings (S : string) (need : bool)
  (q : FontQualifiers) :
  init S need false = Ok q -> init S need true = Ok q.
Proof.
  destruct S as [|c r]; [simpl; discriminate|].
  unfold init, parse. cbn [PyStr.is_empty andb].
  destruct (parse_parts need false (segments (String c r)) fresh) as [q' [e|]] eqn:E;
    [discriminate|]. intros [= ->].
  now rewrite (parse_parts_transfer need false need true
                 (parse_part_allow_empty need) _ _ _ E).
Qed.

Lemma allow_empty_keeps_accepted_strings_witness :
  init homerton_latin1_zero false true = Ok homerton_base.
Proof.
  apply allow_empty_keeps_accepted_strings. vm_compute. reflexivity.
Defined.

Lemma parse_matrix_strict_lenient (part : string) (m : list float) :
  parse_matrix true part = Ok m -> parse_matrix false part = Ok m.
Proof.
  unfold parse_matrix. destruct (_ && _); [auto | discriminate].
Qed.

Lemma parse_part_strict_lenient (allow : bool) (seg : string)
  (self self' : FontQualifiers) :
  parse_part true allow seg self = (self', None) ->
  parse_part false allow seg self = (self', None).
Proof.
  destruct seg as [|q text]; [discriminate|]. unfold parse_part.
  repeat match goal with
         | |- context [if Ascii.eqb ?a ?b then _ else _] => destruct (Ascii.eqb a b)
         | |- context [if PyStr.is_empty ?t && ?a then _ else _] =>
             destruct (PyStr.is_empty t && a)
         end; auto.
  destruct (parse_matrix true text) as [m|e] eqn:E; [|discriminate].
  now rewrite (parse_matrix_strict_lenient text m E).
Qed.

(** X9. A string accepted when the trailing space of the matrix is
    required is accepted when it is not, and gives the same object. *)
Theorem strict_matrix_space_implies_lenient (S : string) (allow : bool)
  (q : FontQualifiers) :
  init S true allow = Ok q -> init S false allow = Ok q.
Proof.
  unfold init, parse. destruct (PyStr.is_empty S && allow); [auto|].
  destruct (parse_parts true allow (segments S) fresh) as [q' [e|]] eqn:E;
    [discriminate|]. intros [= ->].
  now rewrite (parse_parts_transfer true allow false allow
                 (parse_part_strict_lenient allow) _ _ _ E).
Qed.

Lemma strict_matrix_space_implies_lenient_witness :
  init (homerton_latin1_zero ++ " ") false false = Ok homerton_base.
Proof.
  apply strict_matrix_space_implies_lenient. vm_compute. reflexivity.
Defined.

(** ** Success and failure of the constructor *)

(** X3. A non-empty string is accepted exactly when each of its
    segments is accepted on its own: no check looks at two fields, and
    the order of the fields does not matter for acceptance. *)
Theorem init_succeeds_iff_segments_parse (S : string) (need allow : bool) :
  S <> EmptyString ->
  (exists q, init S need allow = Ok q)
  <-> Forall (parses_alone need allow) (segments S).
Proof.
  intros Hne. unfold init, parse.
  assert (He : PyStr.is_empty S = false) by (destruct S; [congruence | reflexivity]).
  rewrite He. cbn [andb]. split.
  - intros [q Hq]. apply (parse_parts_ok_alone need allow (segments S) fresh).
    destruct (parse_parts need allow (segments S) fresh) as [q' [e|]];
      [discriminate | reflexivity].
  - intros Hall.
    destruct (parse_parts_last need allow (segments S) Hall fresh) as [Hok _].
    destruct (parse_parts need allow (segments S) fresh) as [q' r]. simpl in Hok.
    subst r. now exists q'.
Qed.

Lemma init_succeeds_iff_segments_parse_witness :
  Forall (parses_alone false false) (segments homerton_latin1_zero).
Proof.
  apply (proj1 (init_succeeds_iff_segments_parse homerton_latin1_zero false false
                  ltac:(discriminate))).
  exists homerton_base. vm_compute. reflexivity.
Defined.

(** X1. What the constructor and [apply_fields] raise: one of the two
    errors of the module, or [IndexError], and [IndexError] only for a
    string with an empty segment. *)
Theorem constructor_raises (S : string) (need allow : bool) (e : exn) :
  (init S need allow = Raise e ->
   (In EmptyString (segments S) /\ e = IndexError)
   \/ (exists msg, e = FontQualifiersBadStringError msg)
   \/ (exists msg, e = FontQualifiersBadMatrixError msg))
  /\ (forall B, snd (apply_fields B S need) = Some e ->
      (In EmptyString (segments S) /\ e = IndexError)
      \/ (exists msg, e = FontQualifiersBadStringError msg)
      \/ (exists msg, e = FontQualifiersBadMatrixError msg)).
Proof.
  assert (H : forall allow', init S need allow' = Raise e ->
      (In EmptyString (segments S) /\ e = IndexError)
      \/ (exists msg, e = FontQualifiersBadStringError msg)
      \/ (exists msg, e = FontQualifiersBadMatrixError msg)).
  { intros allow'. unfold init.
    destruct (parse fresh S need allow') as [q [e'|]] eqn:E; [|discriminate].
    intros [= ->]. eapply parse_raises; eauto. }
  split; [apply H|].
  intros B. unfold apply_fields.
  destruct (init S need true) as [O|e'] eqn:E; [discriminate|].
  intros [= ->]. now apply (H true).
Qed.

Lemma constructor_raises_witness :
  (In EmptyString (segments (bs ++ "F" ++ bs ++ "X"))
   /\ FontQualifiersBadStringError "Invalid font name in ''" = IndexError)
  \/ (exists msg, FontQualifiersBadStringError "Invalid font name in ''"
                  = FontQualifiersBadStringError msg)
  \/ (exists msg, FontQualifiersBadStringError "Invalid font name in ''"
                  = FontQualifiersBadMatrixError msg).
Proof.
  apply (proj1 (constructor_raises (bs ++ "F" ++ bs ++ "X") false false
                  (FontQualifiersBadStringError "Invalid font name in ''"))).
  vm_compute. reflexivity.
Defined.

(** ** Merging twice, and merging a concatenation *)

Lemma reduce_twice {A : Type} (current new : field A) :
  reduce (reduce current new) new = reduce current new.
Proof. destruct new; reflexivity. Qed.

(** X10. Applying the same string a second time changes nothing. *)
Theorem apply_fields_idempotent (B B1 : FontQualifiers) (S : string) (need : bool) :
  apply_fields B S need = (B1, None) ->
  apply_fields B1 S need = (B1, None).
Proof.
  unfold apply_fields. destruct (init S need true) as [O|e]; [|discriminate].
  intros [= <-]. simpl. unfold set_matrix, set_encodinglocal, set_encoding,
    set_fontlocal, set_fontid. simpl. now rewrite !reduce_twice.
Qed.

Lemma apply_fields_idempotent_witness :
  apply_fields (mkFontQualifiers PyNone PyNone (Value "Latin1") PyNone (Value zero_matrix))
               (bs ++ "F") false
  = (mkFontQualifiers PyNone PyNone (Value "Latin1") PyNone (Value zero_matrix), None).
Proof.
  apply (apply_fields_idempotent homerton_base). vm_compute. reflexivity.
Defined.

Lemma split_append_any (sep : ascii) (a b : string) :
  PyStr.split sep (a ++ String sep b) = (PyStr.split sep a ++ PyStr.split sep b)%list.
Proof.
  induction a as [|c a IH]; simpl.
  - now rewrite Ascii.eqb_refl.
  - rewrite IH. destruct (Ascii.eqb c sep); [reflexivity|].
    destruct (split_cons sep a) as [h [t ->]]. reflexivity.
Qed.

(** The segments of a string followed by a string that starts with the
    separator. *)
Lemma segments_append (S1 S2 : string) :
  S1 <> EmptyString ->
  PyStr.starts_with PyStr.backslash S2 = true ->
  segments (S1 ++ S2) = (segments S1 ++ segments S2)%list.
Proof.
  intros Hne H2. destruct S1 as [|c r]; [congruence|].
  destruct S2 as [|d r2]; [discriminate|]. simpl in H2.
  apply Ascii.eqb_eq in H2. subst d. unfold segments.
  cbn [append PyStr.is_empty PyStr.starts_with orb].
  rewrite Ascii.eqb_refl. cbn [negb].
  change (PyStr.split PyStr.backslash (String PyStr.backslash r2))
    with (EmptyString :: PyStr.split PyStr.backslash r2).
  cbn [List.tl].
  destruct (Ascii.eqb_spec c PyStr.backslash) as [->|Hc]; cbn [negb].
  - change (PyStr.split PyStr.backslash
              (String PyStr.backslash (r ++ String PyStr.backslash r2)))
      with (EmptyString
              :: PyStr.split PyStr.backslash (r ++ String PyStr.backslash r2)).
    change (PyStr.split PyStr.backslash (String PyStr.backslash r))
      with (EmptyString :: PyStr.split PyStr.backslash r).
    cbn [List.tl]. apply split_append_any.
  - change (PyStr.split PyStr.backslash
              (String PyStr.backslash (String "F" (String c (r ++ String PyStr.backslash r2)))))
      with (EmptyString
              :: PyStr.split PyStr.backslash
                   (String "F" (String c r) ++ String PyStr.backslash r2)).
    change (PyStr.split PyStr.backslash (String PyStr.backslash (String "F" (String c r))))
      with (EmptyString :: PyStr.split PyStr.backslash (String "F" (String c r))).
    cbn [List.tl]. apply split_append_any.
Qed.

Lemma parse_parts_append (need allow : bool) (l1 l2 : list string) :
  forall self,
    parse_parts need allow (l1 ++ l2) self
    = match parse_parts need allow l1 self with
      | (self1, None) => parse_parts need allow l2 self1
      | raised => raised
      end.
Proof.
  induction l1 as [|p l1 IH]; intros self; simpl; [reflexivity|].
  destruct (parse_part need allow p self) as [self1 [e|]]; [reflexivity | apply IH].
Qed.

Lemma overlay_assoc {A : Type} (a b c : field A) :
  overlay (overlay a b) c = overlay a (overlay b c).
Proof. destruct c; reflexivity. Qed.

Lemma overlay_object_assoc (a b c : FontQualifiers) :
  overlay_object (overlay_object a b) c = overlay_object a (overlay_object b c).
Proof. unfold overlay_object. simpl. now rewrite !overlay_assoc. Qed.

Lemma overlay_object_fresh (self : FontQualifiers) : overlay_object self fresh = self.
Proof. destruct self. reflexivity. Qed.

(** A turn that raises nothing assigns a value that is not [None] to
    one attribute: the object after the turn is the object before it
    overlaid with what the turn leaves of a new object. *)
Lemma parse_part_overlay (need allow : bool) (seg : string) (self P : FontQualifiers) :
  parse_part need allow seg fresh = (P, None) ->
  parse_part need allow seg self = (overlay_object self P, None).
Proof.
  destruct self. turn_cases; intros [= <-]; reflexivity.
Qed.

Lemma parse_parts_overlay (need allow : bool) (segs : list string) :
  Forall (parses_alone need allow) segs ->
  forall self,
    parse_parts need allow segs self
    = (overlay_object self (fst (parse_parts need allow segs fresh)), None).
Proof.
  induction 1 as [|p rest Hp _ IH]; intros self.
  - simpl. now rewrite overlay_object_fresh.
  - unfold parses_alone in Hp. simpl.
    destruct (parse_part need allow p fresh) as [P r] eqn:E. simpl in Hp. subst r.
    rewrite (parse_part_overlay need allow p self P E).
    rewrite (IH P), (IH (overlay_object self P)). simpl.
    now rewrite overlay_object_assoc.
Qed.

Lemma reduce_overlay {A : Type} (b o1 o2 : field A) :
  reduce b (overlay o1 o2) = reduce (reduce b o1) o2.
Proof. destruct o2; reflexivity. Qed.

Lemma merged_object_overlay (B O1 O2 : FontQualifiers) :
  merged_object B (overlay_object O1 O2) = merged_object (merged_object B O1) O2.
Proof. unfold merged_object, overlay_object. simpl. now rewrite !reduce_overlay. Qed.

Lemma merged_object_fresh (B : FontQualifiers) : merged_object B fresh = B.
Proof. destruct B. reflexivity. Qed.

Lemma init_segments (S : string) (need allow : bool) (q : FontQualifiers) :
  S <> EmptyString ->
  init S need allow = Ok q ->
  Forall (parses_alone need allow) (segments S)
  /\ parse_parts need allow (segments S) fresh = (q, None).
Proof.
  intros Hne. unfold init, parse.
  assert (He : PyStr.is_empty S = false) by (destruct S; [congruence | reflexivity]).
  rewrite He. cbn [andb].
  destruct (parse_parts need allow (segments S) fresh) as [q' [e|]] eqn:E;
    [discriminate|]. intros [= ->]. split; [|reflexivity].
  apply (parse_parts_ok_alone need allow (segments S) fresh). now rewrite E.
Qed.

(** X11. Applying a string and then a second string that starts with
    the separator is applying the two strings joined, when each of them
    parses: the fields of the second string come after those of the
    first and overwrite them. *)
Theorem apply_fields_concatenation (B O1 O2 : FontQualifiers) (S1 S2 : string)
  (need : bool) :
  PyStr.starts_with PyStr.backslash S2 = true ->
  init S1 need true = Ok O1 ->
  init S2 need true = Ok O2 ->
  apply_fields B (S1 ++ S2) need
  = apply_fields (fst (apply_fields B S1 need)) S2 need.
Proof.
  intros H2 H1 HO2.
  rewrite (apply_fields_ok B O1 S1 need H1). cbn [fst].
  rewrite (apply_fields_ok _ O2 S2 need HO2).
  destruct S1 as [|c r].
  - (* the empty string sets nothing *)
    assert (O1 = fresh) by (revert H1; simpl; now intros [= <-]). subst O1.
    rewrite merged_object_fresh. simpl append. now apply apply_fields_ok.
  - assert (Hne2 : S2 <> EmptyString) by (destruct S2; [discriminate | congruence]).
    destruct (init_segments (String c r) need true O1) as [_ E1];
      [discriminate | assumption |].
    destruct (init_segments S2 need true O2 Hne2 HO2) as [Hall2 E2].
    rewrite <- merged_object_overlay. apply apply_fields_ok.
    unfold init, parse. cbn [append PyStr.is_empty andb].
    change (String c (r ++ S2)) with (String c r ++ S2).
    rewrite segments_append by (discriminate || assumption).
    rewrite parse_parts_append, E1, (parse_parts_overlay need true _ Hall2 O1), E2.
    reflexivity.
Qed.

Lemma apply_fields_concatenation_witness :
  apply_fields homerton_base ("Selwyn" ++ (bs ++ "E")) false
  = apply_fields (fst (apply_fields homerton_base "Selwyn" false)) (bs ++ "E") false.
Proof.
  apply (apply_fields_concatenation homerton_base
           (set_fontid (Value "Selwyn") fresh) (set_encoding FontQualifierEmpty fresh)).
  - reflexivity.
  - vm_compute. reflexivity.
  - vm_compute. reflexivity.
Defined.

(** ** The locator and the parser *)

Lemma find_in_parts_none (wanted : ascii) (parts : list string) :
  forall offset,
    find_in_parts wanted parts offset = Ok None ->
    Forall (fun p => has_kind wanted p = false) parts.
Proof.
  induction parts as [|p rest IH]; intros offset; simpl; [constructor|].
  destruct p as [|q r]; [discriminate|].
  destruct (Ascii.eqb q wanted) eqn:E; [discriminate|].
  intros H. constructor; [exact E | eapply IH; eauto].
Qed.

Lemma last_of_kind_none (k : ascii) (segs : list string) :
  Forall (fun p => has_kind k p = false) segs -> last_of_kind k segs = None.
Proof.
  intros H. unfold last_of_kind.
  destruct (List.find (has_kind k) (List.rev segs)) as [seg|] eqn:E; [|reflexivity].
  apply find_some in E. destruct E as [Hin Hk].
  apply in_rev in Hin. rewrite Forall_forall in H. rewrite (H seg Hin) in Hk.
  discriminate.
Qed.

Lemma last_of_kind_some (k : ascii) (segs : list string) (seg : string) :
  last_of_kind k segs = Some seg -> In seg segs /\ has_kind k seg = true.
Proof.
  unfold last_of_kind. intros E. apply find_some in E.
  destruct E as [Hin Hk]. split; [now apply in_rev | assumption].
Qed.

Lemma parses_alone_not_empty (need allow : bool) (seg : string) :
  parses_alone need allow seg -> seg <> EmptyString.
Proof. intros H ->. discriminate. Qed.

(** The segments of a non-empty string and the parts the locator
    splits it into. *)
Lemma segments_split (S h : string) (t : list string) :
  S <> EmptyString ->
  PyStr.split PyStr.backslash S = h :: t ->
  segments S = if PyStr.starts_with PyStr.backslash S then t else String "F" h :: t.
Proof.
  destruct S as [|c r]; [congruence|]. intros _. unfold segments.
  cbn [PyStr.is_empty PyStr.starts_with orb].
  destruct (Ascii.eqb c PyStr.backslash) eqn:Hc; cbn [negb].
  - intros ->. reflexivity.
  - change (PyStr.split PyStr.backslash (String PyStr.backslash (String "F" (String c r))))
      with (EmptyString :: PyStr.split PyStr.backslash (String "F" (String c r))).
    cbn [List.tl]. intros E.
    change (PyStr.split PyStr.backslash (String "F" (String c r)))
      with (match PyStr.split PyStr.backslash (String c r) with
            | h :: t => String "F" h :: t
            | [] => [String "F" EmptyString]
            end).
    now rewrite E.
Qed.

Lemma present_fresh (w : ascii) : present w fresh = false.
Proof.
  unfold present, attribute_of.
  repeat match goal with
         | |- context [if Ascii.eqb ?a ?b then _ else _] => destruct (Ascii.eqb a b)
         end; reflexivity.
Qed.

(** A segment that parses on its own leaves the attribute of its
    qualifier present. *)
Lemma parse_part_present (need allow : bool) (w : ascii) (seg : string) :
  parses_alone need allow seg ->
  has_kind w seg = true ->
  present w (fst (parse_part need allow seg fresh)) = true.
Proof.
  unfold parses_alone, has_kind. destruct seg as [|q text]; [discriminate|].
  simpl PyStr.starts_with. intros Hp Hw. apply Ascii.eqb_eq in Hw. subst w.
  revert Hp. split_on_qualifier q.
  6:{ rewrite parse_part_unknown_qualifier by (simpl; intuition congruence).
      discriminate. }
  all: unfold parse_part; simpl; case_branches; simpl; intros Hp;
    try discriminate Hp; reflexivity.
Qed.

Lemma present_attribute (w : ascii) (q q' : FontQualifiers) :
  attribute_of w q = attribute_of w q' -> present w q = present w q'.
Proof. unfold present. now intros ->. Qed.

(** X14. On a string that the constructor accepts, [find_field]
    returns, and it returns an offset exactly for the qualifiers whose
    attribute the parsed object has (as a value or as the placeholder):
    [None] from the locator means the attribute is [None]. *)
Theorem find_field_agrees_with_parse (S : string) (need allow : bool)
  (q : FontQualifiers) (wanted : ascii) :
  init S need allow = Ok q ->
  exists r, find_field S wanted = Ok r /\ present wanted q = is_some r.
Proof.
  intros Hq. destruct S as [|c r].
  { exists None. split; [reflexivity|]. destruct allow.
    - revert Hq. simpl. intros [= <-]. apply present_fresh.
    - discriminate. }
  destruct (init_segments (String c r) need allow q) as [Hall Hparse];
    [discriminate | assumption |].
  destruct (parse_parts_last need allow _ Hall fresh) as [_ Hattr].
  specialize (Hattr wanted). rewrite Hparse in Hattr. cbn [fst] in Hattr.
  destruct (split_cons PyStr.backslash (String c r)) as [h [t Hsplit]].
  pose proof (segments_split (String c r) h t ltac:(discriminate) Hsplit) as Hsegs.
  assert (Hset : forall seg, last_of_kind wanted (segments (String c r)) = Some seg ->
                             present wanted q = true).
  { intros seg Hseg. rewrite Hseg in Hattr.
    rewrite (present_attribute _ _ _ Hattr).
    destruct (last_of_kind_some _ _ _ Hseg) as [Hin Hk].
    apply parse_part_present; [|assumption].
    rewrite Forall_forall in Hall. now apply Hall. }
  assert (Hunset : last_of_kind wanted (segments (String c r)) = None ->
                   present wanted q = false).
  { intros Hnone. rewrite Hnone in Hattr.
    rewrite (present_attribute _ _ _ Hattr). apply present_fresh. }
  unfold find_field. cbn [PyStr.is_empty]. rewrite Hsplit. cbn [List.tl List.hd].
  destruct (negb (PyStr.starts_with PyStr.backslash (String c r))
            && Ascii.eqb wanted "F") eqn:Hbare.
  - (* the bare font name *)
    exists (Some 0%nat). split; [reflexivity|].
    apply andb_true_iff in Hbare. destruct Hbare as [Hs Hw].
    apply negb_true_iff in Hs. apply Ascii.eqb_eq in Hw. subst wanted.
    rewrite Hs in Hsegs.
    destruct (last_of_kind_exists "F" (segments (String c r))) as [seg Hseg].
    { rewrite Hsegs. simpl. lia. }
    now apply (Hset seg).
  - assert (Ht : Forall (fun p => p <> EmptyString) t).
    { apply Forall_forall. intros p Hp.
      apply (parses_alone_not_empty need allow).
      rewrite Forall_forall in Hall. apply Hall. rewrite Hsegs.
      destruct (PyStr.starts_with PyStr.backslash (String c r)); [assumption | now right]. }
    destruct (find_in_parts_returns wanted t Ht (String.length h)) as [[off|] Hr];
      rewrite Hr; eexists; (split; [reflexivity|]); simpl.
    + apply find_in_parts_found in Hr.
      destruct Hr as (before & text & after & -> & _ & _).
      destruct (last_of_kind_exists wanted (segments (String c r))) as [seg Hseg];
        [|now apply (Hset seg)].
      assert (Hin : In (String wanted text) (segments (String c r))).
      { rewrite Hsegs.
        destruct (PyStr.starts_with PyStr.backslash (String c r));
          [|right]; apply in_or_app; right; now left. }
      assert (Hf : In (String wanted text)
                      (List.filter (has_kind wanted) (segments (String c r)))).
      { apply filter_In. split; [assumption|]. simpl. apply Ascii.eqb_refl. }
      destruct (List.filter (has_kind wanted) (segments (String c r)));
        [destruct Hf | simpl; lia].
    + apply Hunset, last_of_kind_none. rewrite Hsegs.
      apply find_in_parts_none in Hr.
      destruct (PyStr.starts_with PyStr.backslash (String c r)) eqn:Hs;
        [assumption|].
      constructor; [|assumption]. unfold has_kind, PyStr.starts_with.
      rewrite Ascii.eqb_sym. exact Hbare.
Qed.

Lemma find_field_agrees_with_parse_witness :
  exists r, find_field homerton_latin1_zero "f" = Ok r
            /\ present "f" homerton_base = is_some r.
Proof.
  apply (find_field_agrees_with_parse homerton_latin1_zero false false).
  vm_compute. reflexivity.
Defined.

(** ** Writing and reading integers *)

Lemma digit_of_digit_char (d : Z) :
  0 <= d <= 9 -> PyInt.digit (PyInt.digit_char d) = Some d.
Proof.
  intros H.
  assert (Hd : d = 0 \/ d = 1 \/ d = 2 \/ d = 3 \/ d = 4 \/ d = 5 \/ d = 6
               \/ d = 7 \/ d = 8 \/ d = 9) by lia.
  repeat (destruct Hd as [->|Hd]; [reflexivity|]). now subst.
Qed.

Lemma mod_10_digit (n : Z) : 0 <= n mod 10 <= 9.
Proof. pose proof (Z.mod_pos_bound n 10 ltac:(lia)). lia. Qed.

(** Reading the digits [pos_digits] writes: the value read so far moves
    up by as many decimal places as there are digits, and the number is
    added. *)
Lemma digits_pos_digits (fuel : nat) :
  forall n, 0 <= n < 10 ^ Z.of_nat fuel ->
    exists k, 0 <= k /\ forall a acc,
      PyInt.digits a true (PyInt.pos_digits fuel n acc)
      = PyInt.digits (a * 10 ^ k + n) true acc.
Proof.
  induction fuel as [|fuel IH]; intros n Hn.
  - exists 0. split; [lia|]. intros a acc. simpl in *.
    replace (a * 1 + n) with a by lia. reflexivity.
  - cbn [PyInt.pos_digits]. destruct (Z.ltb_spec n 10) as [Hlt|Hge].
    + exists 1. split; [lia|]. intros a acc. cbn [PyInt.digits].
      rewrite Z.mod_small by lia. rewrite digit_of_digit_char by lia.
      f_equal. lia.
    + assert (Hq : 0 <= n / 10 < 10 ^ Z.of_nat fuel).
      { split; [apply Z.div_pos; lia|].
        apply Z.div_lt_upper_bound; [lia|].
        rewrite Nat2Z.inj_succ, Z.pow_succ_r in Hn by lia. lia. }
      destruct (IH (n / 10) Hq) as [k [Hk Hread]].
      exists (k + 1). split; [lia|]. intros a acc. rewrite Hread.
      cbn [PyInt.digits].
      rewrite digit_of_digit_char by (apply mod_10_digit).
      f_equal. rewrite Z.pow_add_r by lia.
      pose proof (Z.div_mod n 10 ltac:(lia)) as Hdm. lia.
Qed.

(** With fuel left, what [pos_digits] writes starts with a digit. *)
Lemma pos_digits_head (fuel : nat) :
  forall n acc, 0 <= n ->
    exists d r, 0 <= d <= 9
                /\ PyInt.pos_digits (S fuel) n acc = String (PyInt.digit_char d) r.
Proof.
  induction fuel as [|fuel IH]; intros n acc Hn; cbn [PyInt.pos_digits].
  - exists (n mod 10). destruct (n <? 10); eexists;
      (split; [apply mod_10_digit | reflexivity]).
  - destruct (Z.ltb_spec n 10) as [Hlt|Hge].
    + exists (n mod 10). eexists. split; [apply mod_10_digit | reflexivity].
    + apply IH. apply Z.div_pos; lia.
Qed.

Lemma pos_size_bound (p : positive) : Zpos p < 10 ^ Z.of_nat (Pos.to_nat (Pos.size p)).
Proof.
  rewrite positive_nat_Z.
  apply Z.lt_le_trans with (2 ^ Zpos (Pos.size p)).
  - pose proof (Pos.size_gt p) as H. apply Pos2Z.pos_lt_pos in H.
    rewrite Pos2Z.inj_pow in H. exact H.
  - apply Z.pow_le_mono_l. lia.
Qed.

Lemma unsigned_pos_digits (p : positive) :
  PyInt.unsigned (PyInt.pos_digits (Pos.to_nat (Pos.size p)) (Zpos p) EmptyString)
  = Some (Zpos p).
Proof.
  destruct (digits_pos_digits (Pos.to_nat (Pos.size p)) (Zpos p)) as [k [Hk Hread]].
  { split; [lia | apply pos_size_bound]. }
  specialize (Hread 0 EmptyString). simpl PyInt.digits at 2 in Hread.
  destruct (Pos.to_nat (Pos.size p)) as [|fuel] eqn:Hfuel.
  { pose proof (Pos2Nat.is_pos (Pos.size p)). lia. }
  destruct (pos_digits_head fuel (Zpos p) EmptyString) as (d & r & Hd & E); [lia|].
  rewrite E in *. unfold PyInt.unsigned. cbn [PyInt.digits] in Hread.
  rewrite digit_of_digit_char in * by assumption.
  replace (10 * 0 + d) with d in Hread by lia. exact Hread.
Qed.

Lemma digit_char_plain (d : Z) :
  0 <= d <= 9 ->
  PyInt.is_space (PyInt.digit_char d) = false
  /\ Ascii.eqb (PyInt.digit_char d) "-" = false
  /\ Ascii.eqb (PyInt.digit_char d) "+" = false
  /\ Ascii.eqb (PyInt.digit_char d) PyStr.space = false
  /\ Ascii.eqb (PyInt.digit_char d) PyStr.backslash = false.
Proof.
  intros H.
  assert (Hd : d = 0 \/ d = 1 \/ d = 2 \/ d = 3 \/ d = 4 \/ d = 5 \/ d = 6
               \/ d = 7 \/ d = 8 \/ d = 9) by lia.
  repeat (destruct Hd as [->|Hd]; [repeat split|]). subst. repeat split.
Qed.

Lemma int_minus (s : string) :
  PyInt.int (String "-" s) = option_map Z.opp (PyInt.unsigned s).
Proof. reflexivity. Qed.

(** [int(str(n))] is [n]. *)
Lemma int_str (n : Z) : PyInt.int (PyInt.str n) = Some n.
Proof.
  destruct n as [|p|p]; [reflexivity| |].
  - pose proof (unsigned_pos_digits p) as H. unfold PyInt.str, PyInt.int.
    destruct (Pos.to_nat (Pos.size p)) as [|fuel] eqn:Hfuel.
    { pose proof (Pos2Nat.is_pos (Pos.size p)). lia. }
    destruct (pos_digits_head fuel (Zpos p) EmptyString) as (d & r & Hd & E); [lia|].
    rewrite E in *. destruct (digit_char_plain d Hd) as (Hs & Hm & Hp & _).
    cbn [PyInt.skip_spaces]. now rewrite Hs, Hm, Hp.
  - unfold PyInt.str. rewrite int_minus, unsigned_pos_digits. reflexivity.
Qed.

(** [str(n)] holds neither a space nor a separator. *)
Lemma pos_digits_plain (fuel : nat) (c : ascii) :
  (forall d, 0 <= d <= 9 -> Ascii.eqb (PyInt.digit_char d) c = false) ->
  forall n acc, 0 <= n ->
    PyStr.contains c acc = false ->
    PyStr.contains c (PyInt.pos_digits fuel n acc) = false.
Proof.
  intros Hc. induction fuel as [|fuel IH]; intros n acc Hn Hacc; cbn [PyInt.pos_digits];
    [assumption|].
  assert (Hd : PyStr.contains c (String (PyInt.digit_char (n mod 10)) acc) = false).
  { simpl. rewrite Hc by (apply mod_10_digit). exact Hacc. }
  destruct (n <? 10); [exact Hd|]. apply IH; [apply Z.div_pos; lia | exact Hd].
Qed.

Lemma str_plain (n : Z) :
  PyStr.contains PyStr.space (PyInt.str n) = false
  /\ PyStr.contains PyStr.backslash (PyInt.str n) = false.
Proof.
  assert (Hs : forall d, 0 <= d <= 9 ->
                         Ascii.eqb (PyInt.digit_char d) PyStr.space = false)
    by (intros d Hd; apply (digit_char_plain d Hd)).
  assert (Hb : forall d, 0 <= d <= 9 ->
                         Ascii.eqb (PyInt.digit_char d) PyStr.backslash = false)
    by (intros d Hd; apply (digit_char_plain d Hd)).
  destruct n as [|p|p]; [split; reflexivity| |]; unfold PyInt.str.
  - split; apply pos_digits_plain; auto; lia.
  - split; simpl; apply pos_digits_plain; auto; lia.
Qed.

(** ** Reading back what [font_string] writes *)

Lemma parse_part_font_id (need allow : bool) (f : string) (self : FontQualifiers) :
  valid_identifier f ->
  parse_part need allow (String "F" f) self = (set_fontid (Value f) self, None).
Proof.
  intros (Hp & _). unfold parse_part. simpl.
  destruct f as [|c r]; [discriminate|]. cbn [PyStr.is_empty andb].
  now rewrite Hp.
Qed.

Lemma parse_part_encoding (need allow : bool) (f : string) (self : FontQualifiers) :
  valid_identifier f ->
  parse_part need allow (String "E" f) self = (set_encoding (Value f) self, None).
Proof.
  intros (Hp & _). unfold parse_part. simpl.
  destruct f as [|c r]; [discriminate|]. cbn [PyStr.is_empty andb].
  now rewrite Hp.
Qed.

Lemma contains_append (c : ascii) (a b : string) :
  PyStr.contains c (a ++ b) = PyStr.contains c a || PyStr.contains c b.
Proof.
  induction a as [|x a IH]; simpl; [reflexivity|]. now rewrite IH, orb_assoc.
Qed.

Lemma contains_head (c : ascii) (r : string) : PyStr.contains c (String c r) = true.
Proof. simpl. now rewrite Ascii.eqb_refl. Qed.

Lemma split_once_append (sep : ascii) (a b : string) :
  PyStr.contains sep a = false ->
  PyStr.split_once sep (a ++ String sep b) = (a, b).
Proof.
  induction a as [|x a IH]; simpl.
  - now rewrite Ascii.eqb_refl.
  - intros H. apply orb_false_iff in H. destruct H as [-> Ha]. now rewrite IH.
Qed.

(** The text written for a local name is read back as the territory
    and the name. *)
Lemma parse_local_text (what : string) (local : Z * string) :
  parse_local what (local_text local) = Ok local.
Proof.
  destruct local as [t n]. unfold parse_local, local_text. cbn [fst snd].
  change (PyInt.str t ++ " " ++ n) with (PyInt.str t ++ String PyStr.space n).
  rewrite contains_append, contains_head, orb_true_r. cbn [negb].
  rewrite split_once_append by apply str_plain.
  now rewrite int_str.
Qed.

Lemma local_text_not_empty (local : Z * string) :
  PyStr.is_empty (local_text local) = false.
Proof.
  destruct local as [t n]. unfold local_text. cbn [fst snd].
  destruct (PyInt.str t); reflexivity.
Qed.

Lemma parse_part_font_local (need allow : bool) (local : Z * string)
  (self : FontQualifiers) :
  parse_part need allow (String "f" (local_text local)) self
  = (set_fontlocal (Value local) self, None).
Proof.
  unfold parse_part. simpl.
  now rewrite local_text_not_empty, parse_local_text.
Qed.

Lemma parse_part_encoding_local (need allow : bool) (local : Z * string)
  (self : FontQualifiers) :
  parse_part need allow (String "e" (local_text local)) self
  = (set_encodinglocal (Value local) self, None).
Proof.
  unfold parse_part. simpl.
  now rewrite local_text_not_empty, parse_local_text.
Qed.

Lemma local_text_no_separator (local : Z * string) :
  valid_local local ->
  PyStr.contains PyStr.backslash (local_text local) = false.
Proof.
  destruct local as [t n]. unfold valid_local, local_text. cbn [fst snd].
  intros Hn. rewrite contains_append. simpl. rewrite Hn.
  now rewrite (proj2 (str_plain t)).
Qed.

Lemma concat_field_text (fs : list (ascii * string)) :
  String.concat EmptyString (map field_text fs)
  = tail_text PyStr.backslash (map segment_of fs).
Proof.
  induction fs as [|x fs IH]; [reflexivity|].
  cbn [map tail_text]. rewrite join_cons, <- IH.
  destruct fs as [|y fs]; [simpl; now rewrite append_empty_r | reflexivity].
Qed.

(** The segments of the string written for a list of fields are the
    fields, when no text holds a separator. *)
Lemma segments_of_fields (x : ascii * string) (fs : list (ascii * string)) :
  Forall (fun f => PyStr.contains PyStr.backslash (segment_of f) = false) (x :: fs) ->
  segments (String.concat EmptyString (map field_text (x :: fs)))
  = map segment_of (x :: fs).
Proof.
  intros H. rewrite concat_field_text. cbn [map tail_text]. unfold segments.
  cbn [PyStr.is_empty PyStr.starts_with orb]. rewrite Ascii.eqb_refl. cbn [negb].
  change (PyStr.split PyStr.backslash
            (String PyStr.backslash
               (PyStr.join PyStr.backslash (segment_of x :: map segment_of fs))))
    with (EmptyString
            :: PyStr.split PyStr.backslash
                 (PyStr.join PyStr.backslash (segment_of x :: map segment_of fs))).
  cbn [List.tl]. apply split_join.
  change (segment_of x :: map segment_of fs) with (map segment_of (x :: fs)).
  apply Forall_map. exact H.
Qed.

Lemma init_of_fields (need allow : bool) (x : ascii * string)
  (fs : list (ascii * string)) (q : FontQualifiers) :
  Forall (fun f => PyStr.contains PyStr.backslash (segment_of f) = false) (x :: fs) ->
  parse_parts need allow (map segment_of (x :: fs)) fresh = (q, None) ->
  init (String.concat EmptyString (map field_text (x :: fs))) need allow = Ok q.
Proof.
  intros H Hq. unfold init, parse. rewrite (segments_of_fields x fs H), Hq.
  rewrite concat_field_text. reflexivity.
Qed.

Lemma segment_no_separator (qualifier : ascii) (text : string) :
  Ascii.eqb qualifier PyStr.backslash = false ->
  PyStr.contains PyStr.backslash text = false ->
  PyStr.contains PyStr.backslash (segment_of (qualifier, text)) = false.
Proof. intros Hq Ht. unfold segment_of. simpl. now rewrite Hq, Ht. Qed.

Lemma init_bare (need allow : bool) (f : string) :
  valid_identifier f ->
  init f need allow = Ok (set_fontid (Value f) fresh).
Proof.
  intros Hf. pose proof Hf as (Hp & Hsep). unfold init, parse.
  assert (He : PyStr.is_empty f = false) by (destruct f; [discriminate | reflexivity]).
  rewrite He, segments_bare by assumption. cbn [andb parse_parts].
  now rewrite parse_part_font_id.
Qed.

Ltac read_back :=
  apply init_of_fields;
  [ repeat constructor;
    apply segment_no_separator;
    solve [ reflexivity
          | now apply local_text_no_separator
          | match goal with H : valid_identifier _ |- _ => apply H end ]
  | cbn [map parse_parts]; unfold segment_of; cbn [fst snd];
    repeat first [ rewrite parse_part_font_id by assumption
                 | rewrite parse_part_encoding by assumption
                 | rewrite parse_part_font_local
                 | rewrite parse_part_encoding_local ];
    reflexivity ].

(** An object without a matrix and without a placeholder, whose
    identifiers pass the pattern and whose texts hold no separator, is
    written to a string that the constructor reads back as the same
    object. *)
Lemma serializable_read_back (q : FontQualifiers) :
  serializable q ->
  exists s,
    font_string q = Ok s
    /\ (forall need, init s need true = Ok q)
    /\ (q <> fresh -> forall need, init s need false = Ok q).
Proof.
  destruct q as [fid fl enc el m]. unfold serializable, no_placeholder. simpl.
  intros (-> & (N1 & N2 & N3 & N4 & _) & Hf & Hfl & He & Hel).
  destruct fid as [| |f]; [|discriminate|specialize (Hf f eq_refl)];
    (destruct fl as [| |l]; [|discriminate|specialize (Hfl l eq_refl)]);
    (destruct enc as [| |e]; [|discriminate|specialize (He e eq_refl)]);
    (destruct el as [| |l']; [|discriminate|specialize (Hel l' eq_refl)]);
    unfold font_string, matrix_entry, bind, field_entry;
    cbn -[String.concat List.map local_text];
    (eexists; split; [reflexivity|]);
    (split; [intros need | intros Hq need]);
    first [ reflexivity
          | exfalso; apply Hq; reflexivity
          | now apply init_bare
          | read_back ].
Qed.

Lemma plain_identifier_valid (s : string) : plain_identifier s -> valid_identifier s.
Proof.
  intros (Hne & Hp & Hsep). split; [now apply printable_acceptable | assumption].
Qed.

Lemma when_value_weaken {A : Type} (P Q : A -> Prop) (v : field A) :
  (forall a, P a -> Q a) -> when_value P v -> when_value Q v.
Proof. unfold when_value. eauto. Qed.

(** X17. An object without a matrix and without a placeholder, whose
    font id and encoding are non-empty printable texts without a
    separator, whose local names hold no separator and whose
    territories have at most 4300 digits, is written by [font_string]
    to a string that the constructor reads back as the same object:
    with [allow_empty] always, without it unless no attribute is set
    (the string is then empty and refused). *)
Theorem font_string_round_trip (q : FontQualifiers) :
  plain_object q ->
  exists s,
    font_string q = Ok s
    /\ (forall need, init s need true = Ok q)
    /\ (q <> fresh -> forall need, init s need false = Ok q).
Proof.
  intros (Hm & Hn & Hf & Hfl & He & Hel). apply serializable_read_back.
  refine (conj Hm (conj Hn (conj _ (conj _ (conj _ _))))).
  - apply (when_value_weaken plain_identifier valid_identifier _ plain_identifier_valid).
    assumption.
  - apply (when_value_weaken plain_local valid_local _ (fun l H => proj1 H)).
    assumption.
  - apply (when_value_weaken plain_identifier valid_identifier _ plain_identifier_valid).
    assumption.
  - apply (when_value_weaken plain_local valid_local _ (fun l H => proj1 H)).
    assumption.
Qed.

Lemma font_string_round_trip_witness :
  exists s,
    font_string (mkFontQualifiers (Value "Homerton.Medium") (Value (1, "Homerton Medium"))
                                  (Value "Latin1") PyNone PyNone) = Ok s
    /\ init s false false
       = Ok (mkFontQualifiers (Value "Homerton.Medium") (Value (1, "Homerton Medium"))
                              (Value "Latin1") PyNone PyNone).
Proof.
  destruct (font_string_round_trip
              (mkFontQualifiers (Value "Homerton.Medium") (Value (1, "Homerton Medium"))
                                (Value "Latin1") PyNone PyNone))
    as (s & Hs & _ & Hread).
  - unfold plain_object, no_placeholder, when_value, plain_identifier, plain_local,
      valid_local, writable_territory.
    cbn [matrix fontid fontlocal encoding encodinglocal is_placeholder].
    refine (conj eq_refl (conj _ (conj _ (conj _ (conj _ _))))).
    + repeat split.
    + intros a Hv. injection Hv as <-.
      split; [discriminate | split; reflexivity].
    + intros a Hv. injection Hv as <-.
      split; [reflexivity | vm_compute; reflexivity].
    + intros a Hv. injection Hv as <-.
      split; [discriminate | split; reflexivity].
    + intros a Hv. discriminate Hv.
  - exists s. split; [exact Hs|]. apply Hread. discriminate.
Defined.

(** ** The text at the offset and the parsed identifier *)

(** The segment the locator stops at, among the segments of the parser,
    and the place of its text in the string. *)
Lemma find_field_segment (S : string) (wanted : ascii) (off : nat) :
  find_field S wanted = Ok (Some off) ->
  exists before text after,
    segments S = (before ++ String wanted text :: after)%list
    /\ Forall (fun p => has_kind wanted p = false) before
    /\ exists pre post,
        S = pre ++ text ++ post
        /\ String.length pre = off
        /\ (post = EmptyString \/ PyStr.starts_with PyStr.backslash post = true).
Proof.
  destruct S as [|c r]; [discriminate|].
  destruct (split_cons PyStr.backslash (String c r)) as [h [t Hsplit]].
  pose proof (segments_split (String c r) h t ltac:(discriminate) Hsplit) as Hsegs.
  pose proof (join_split PyStr.backslash (String c r)) as Hjoin.
  rewrite Hsplit in Hjoin.
  unfold find_field. cbn [PyStr.is_empty]. rewrite Hsplit. cbn [List.tl List.hd].
  destruct (negb (PyStr.starts_with PyStr.backslash (String c r))
            && Ascii.eqb wanted "F") eqn:Hbare.
  - intros [= <-]. apply andb_true_iff in Hbare. destruct Hbare as [Hs Hw].
    apply negb_true_iff in Hs. apply Ascii.eqb_eq in Hw. subst wanted.
    rewrite Hs in Hsegs. exists [], h, t. repeat split; [exact Hsegs | constructor|].
    exists EmptyString, (tail_text PyStr.backslash t).
    rewrite join_cons in Hjoin. repeat split; auto using tail_text_boundary.
  - intros H. apply find_in_parts_found in H.
    destruct H as (before & text & after & -> & Hb & ->).
    rewrite join_app in Hjoin.
    assert (Hpos : exists pre post,
               String c r = pre ++ text ++ post
               /\ String.length pre
                  = (String.length h
                     + list_sum (map (fun p => S (String.length p)) before) + 2)%nat
               /\ (post = EmptyString \/ PyStr.starts_with PyStr.backslash post = true)).
    { exists (PyStr.join PyStr.backslash (h :: before)
              ++ String PyStr.backslash (String wanted EmptyString)),
        (tail_text PyStr.backslash after).
      repeat split.
      - rewrite <- Hjoin at 1. rewrite !append_assoc. reflexivity.
      - rewrite length_append, length_join. simpl. lia.
      - apply tail_text_boundary. }
    destruct (PyStr.starts_with PyStr.backslash (String c r)) eqn:Hs.
    + exists before, text, after. repeat split; assumption.
    + exists (String "F" h :: before), text, after. rewrite Hsegs.
      repeat split; [|assumption]. constructor; [|assumption].
      unfold has_kind, PyStr.starts_with. rewrite Ascii.eqb_sym. exact Hbare.
Qed.

Lemma filter_none (k : ascii) (l : list string) :
  List.filter (has_kind k) l = [] -> Forall (fun p => has_kind k p = false) l.
Proof.
  induction l as [|p l IH]; simpl; [constructor|].
  destruct (has_kind k p) eqn:E; [discriminate|]. intros H. constructor; auto.
Qed.

(** The only segment of its kind is also the last one. *)
Lemma last_of_kind_unique (k : ascii) (before after : list string) (text : string) :
  List.length (List.filter (has_kind k) (before ++ String k text :: after)) = 1%nat ->
  last_of_kind k (before ++ String k text :: after) = Some (String k text).
Proof.
  rewrite filter_app. cbn [List.filter]. unfold has_kind at 2. simpl PyStr.starts_with.
  rewrite Ascii.eqb_refl, length_app. cbn [List.length]. intros H.
  assert (Ha : List.filter (has_kind k) after = [])
    by (destruct (List.filter (has_kind k) after); [reflexivity | simpl in H; lia]).
  unfold last_of_kind. rewrite rev_app_distr. cbn [List.rev].
  rewrite <- app_assoc, find_app.
  apply filter_none, last_of_kind_none in Ha. unfold last_of_kind in Ha. rewrite Ha.
  simpl. unfold has_kind. simpl. now rewrite Ascii.eqb_refl.
Qed.

(** X15. When the constructor (without [allow_empty]) accepts a string
    in which the font id, or the encoding, is given once, the offset
    [find_field] returns for it is the place in the string of the very
    text the parsed object holds as that attribute, and the text is
    followed by a separator or by the end of the string. *)
Theorem find_field_locates_parsed_identifier (S : string) (need : bool)
  (q : FontQualifiers) (wanted : ascii) (off : nat) :
  wanted = "F"%char \/ wanted = "E"%char ->
  init S need false = Ok q ->
  find_field S wanted = Ok (Some off) ->
  List.length (List.filter (has_kind wanted) (segments S)) = 1%nat ->
  exists pre text post,
    S = pre ++ text ++ post
    /\ String.length pre = off
    /\ (post = EmptyString \/ PyStr.starts_with PyStr.backslash post = true)
    /\ attribute_of wanted q = Some (Identifier (Value text)).
Proof.
  intros Hw Hq Hfind Hone.
  assert (Hne : S <> EmptyString) by (intros ->; discriminate).
  destruct (init_segments S need false q Hne Hq) as [Hall Hparse].
  destruct (find_field_segment S wanted off Hfind)
    as (before & text & after & Hsegs & _ & pre & post & HS & Hlen & Hpost).
  exists pre, text, post. repeat split; try assumption.
  destruct (parse_parts_last need false _ Hall fresh) as [_ Hattr].
  specialize (Hattr wanted). rewrite Hparse in Hattr. cbn [fst] in Hattr.
  rewrite Hsegs in Hone, Hattr, Hall.
  rewrite (last_of_kind_unique wanted before after text Hone) in Hattr.
  rewrite Hattr.
  assert (Halone : parses_alone need false (String wanted text)).
  { rewrite Forall_forall in Hall. apply Hall, in_or_app. right. now left. }
  revert Halone. unfold parses_alone, parse_part.
  destruct Hw as [-> | ->]; simpl; rewrite andb_false_r;
    destruct (Re.acceptable_identifiers_re_search text); simpl;
    (discriminate || reflexivity).
Qed.

Lemma find_field_locates_parsed_identifier_witness :
  exists pre text post,
    homerton_latin1_zero = pre ++ text ++ post
    /\ String.length pre = 19%nat
    /\ (post = EmptyString \/ PyStr.starts_with PyStr.backslash post = true)
    /\ attribute_of "E" homerton_base = Some (Identifier (Value text)).
Proof.
  apply (find_field_locates_parsed_identifier homerton_latin1_zero false homerton_base).
  - right. reflexivity.
  - vm_compute. reflexivity.
  - vm_compute. reflexivity.
  - vm_compute. reflexivity.
Defined.

(** ** Parsing, writing and parsing again *)

Lemma split_once_no_separator (c sep : ascii) (s : string) :
  PyStr.contains c s = false ->
  PyStr.contains c (snd (PyStr.split_once sep s)) = false.
Proof.
  induction s as [|x s IH]; simpl; [reflexivity|].
  intros H. apply orb_false_iff in H. destruct H as [Hx Hs].
  destruct (Ascii.eqb x sep); [exact Hs|].
  destruct (PyStr.split_once sep s) as [a b]. simpl in *. auto.
Qed.

Lemma parse_local_no_separator (what text : string) (local : Z * string) :
  PyStr.contains PyStr.backslash text = false ->
  parse_local what text = Ok local ->
  valid_local local.
Proof.
  intros Ht. unfold parse_local. destruct (negb _); [discriminate|].
  pose proof (split_once_no_separator PyStr.backslash PyStr.space text Ht) as Hn.
  destruct (PyStr.split_once PyStr.space text) as [territory name].
  destruct (PyInt.int territory); [|discriminate]. intros [= <-]. exact Hn.
Qed.

Lemma parse_part_readable (need allow : bool) (seg : string)
  (self self' : FontQualifiers) :
  PyStr.contains PyStr.backslash seg = false ->
  readable_texts self ->
  parse_part need allow seg self = (self', None) ->
  readable_texts self'.
Proof.
  unfold readable_texts, when_value. intros Hseg (H1 & H2 & H3 & H4).
  destruct seg as [|k text]; [discriminate|].
  simpl in Hseg. apply orb_false_iff in Hseg. destruct Hseg as [_ Htext].
  unfold parse_part.
  repeat match goal with
         | |- context [if Ascii.eqb ?a ?b then _ else _] => destruct (Ascii.eqb a b)
         | |- context [if PyStr.is_empty ?t && ?a then _ else _] =>
             destruct (PyStr.is_empty t && a) eqn:?
         | |- context [if negb ?b then _ else _] => destruct b eqn:?; cbn [negb]
         | |- context [match parse_local ?w ?t with _ => _ end] =>
             destruct (parse_local w t) eqn:?
         | |- context [match parse_matrix ?n ?t with _ => _ end] =>
             destruct (parse_matrix n t) eqn:?
         end; try discriminate;
    intros [= <-]; simpl; refine (conj _ (conj _ (conj _ _))); try assumption;
    intros ? Hv;
    first [ discriminate Hv
          | injection Hv as <-;
            solve [ split; assumption
                  | eapply parse_local_no_separator; eassumption ] ].
Qed.

Lemma parse_parts_readable (need allow : bool) (segs : list string) :
  Forall (fun p => PyStr.contains PyStr.backslash p = false) segs ->
  forall self self',
    readable_texts self ->
    parse_parts need allow segs self = (self', None) ->
    readable_texts self'.
Proof.
  induction 1 as [|p rest Hp _ IH]; intros self self' Hself; simpl.
  - now intros [= <-].
  - destruct (parse_part need allow p self) as [self1 [e|]] eqn:E; [discriminate|].
    apply IH. eapply parse_part_readable; eauto.
Qed.

Lemma segments_no_separator (S : string) :
  Forall (fun p => PyStr.contains PyStr.backslash p = false) (segments S).
Proof.
  unfold segments.
  set (s := if PyStr.is_empty S || negb (PyStr.starts_with PyStr.backslash S)
            then String PyStr.backslash (String "F" S) else S).
  apply Forall_forall. intros p Hp. apply (split_no_sep PyStr.backslash s).
  destruct (PyStr.split PyStr.backslash s) as [|h t]; [destruct Hp | right; exact Hp].
Qed.

Lemma segments_not_nil (S : string) : segments S <> [].
Proof.
  unfold segments. destruct S as [|c r]; [discriminate|].
  cbn [PyStr.is_empty PyStr.starts_with orb].
  destruct (Ascii.eqb_spec c PyStr.backslash) as [->|Hc]; cbn [negb].
  - change (PyStr.split PyStr.backslash (String PyStr.backslash r))
      with (EmptyString :: PyStr.split PyStr.backslash r).
    cbn [List.tl]. destruct (split_cons PyStr.backslash r) as [h [t ->]]. discriminate.
  - change (PyStr.split PyStr.backslash (String PyStr.backslash (String "F" (String c r))))
      with (EmptyString :: PyStr.split PyStr.backslash (String "F" (String c r))).
    cbn [List.tl].
    destruct (split_cons PyStr.backslash (String "F" (String c r))) as [h [t ->]].
    discriminate.
Qed.

(** An accepted string that is not empty sets an attribute. *)
Lemma init_not_fresh (S : string) (need : bool) (q : FontQualifiers) :
  init S need false = Ok q -> q <> fresh.
Proof.
  intros Hq. assert (Hne : S <> EmptyString) by (intros ->; discriminate).
  destruct (init_segments S need false q Hne Hq) as [Hall Hparse].
  destruct (parse_parts_last need false _ Hall fresh) as [_ Hattr].
  rewrite Hparse in Hattr. cbn [fst] in Hattr.
  pose proof (segments_not_nil S) as Hnil.
  destruct (segments S) as [|seg rest] eqn:Hsegs; [congruence|].
  assert (Hseg : parses_alone need false seg) by (inversion Hall; assumption).
  destruct seg as [|k text]; [discriminate|].
  destruct (last_of_kind_exists k (String k text :: rest)) as [seg' Hlast].
  { cbn [List.filter]. unfold has_kind at 1. simpl PyStr.starts_with.
    rewrite Ascii.eqb_refl. simpl. lia. }
  specialize (Hattr k). rewrite Hlast in Hattr.
  destruct (last_of_kind_some _ _ _ Hlast) as [Hin Hk].
  assert (Hpresent : present k q = true).
  { rewrite (present_attribute _ _ _ Hattr). apply parse_part_present; [|assumption].
    rewrite Forall_forall in Hall. now apply Hall. }
  intros ->. rewrite present_fresh in Hpresent. discriminate.
Qed.

(** X18. For a string the constructor accepts (without [allow_empty])
    and that sets no matrix, [font_string] of the parsed object is a
    string that parses, under any flags, to that same object: parsing
    what was written gives back what was parsed. *)
Theorem parse_font_string_parse (S : string) (need : bool) (q : FontQualifiers) :
  init S need false = Ok q ->
  matrix q = PyNone ->
  exists s,
    font_string q = Ok s
    /\ forall need' allow', init s need' allow' = Ok q.
Proof.
  intros Hq Hm.
  assert (Hne : S <> EmptyString) by (intros ->; discriminate).
  destruct (init_segments S need false q Hne Hq) as [_ Hparse].
  assert (Hread : serializable q).
  { split; [exact Hm|]. split.
    - apply (init_invariant need false no_placeholder) with (S := S);
        [intros seg self self'; apply parse_part_no_placeholder
        | repeat split | exact Hq].
    - apply (parse_parts_readable need false (segments S)
               (segments_no_separator S) fresh q); [|exact Hparse].
      refine (conj _ (conj _ (conj _ _))); intros ? Hv; discriminate Hv. }
  destruct (serializable_read_back q Hread) as (s & Hs & Ht & Hf).
  exists s. split; [exact Hs|]. intros need' [|]; [apply Ht|].
  apply Hf. eapply init_not_fresh; eauto.
Qed.

Lemma parse_font_string_parse_witness :
  exists s,
    font_string (mkFontQualifiers (Value "Homerton.Medium") PyNone (Value "Latin1")
                                  PyNone PyNone) = Ok s
    /\ forall need' allow',
        init s need' allow'
        = Ok (mkFontQualifiers (Value "Homerton.Medium") PyNone (Value "Latin1")
                               PyNone PyNone).
Proof.
  apply (parse_font_string_parse ("Homerton.Medium" ++ bs ++ "ELatin1") false).
  - vm_compute. reflexivity.
  - reflexivity.
Defined.

Lemma font_string_matrix_trailing_space_witness :
  exists s', homerton_latin1_zero ++ " " = s' ++ " ".
Proof.
  apply (font_string_matrix_trailing_space homerton_base zero_matrix).
  - reflexivity.
  - vm_compute. reflexivity.
Defined.

(** ** What the locator raises *)

Lemma find_in_parts_raises (wanted : ascii) (parts : list string) :
  forall offset e,
    find_in_parts wanted parts offset = Raise e ->
    e = IndexError
    /\ exists before after,
        parts = (before ++ EmptyString :: after)%list
        /\ Forall (fun p => p <> EmptyString /\ has_kind wanted p = false) before.
Proof.
  induction parts as [|p rest IH]; intros offset e; simpl; [discriminate|].
  destruct p as [|k r].
  - intros [= <-]. split; [reflexivity|]. exists [], rest. split; [reflexivity | constructor].
  - destruct (Ascii.eqb k wanted) eqn:Hk; [discriminate|].
    intros H. destruct (IH _ _ H) as [-> (before & after & -> & Hb)].
    split; [reflexivity|]. exists (String k r :: before), after.
    split; [reflexivity|]. constructor; [|assumption]. split; [discriminate | exact Hk].
Qed.

(** X13. [find_field] raises nothing but [IndexError], and only when
    the string has an empty segment that no segment with the wanted
    qualifier precedes; on a string without an empty segment it
    returns. *)
Theorem find_field_raises (S : string) (wanted : ascii) :
  (forall e, find_field S wanted = Raise e ->
     e = IndexError
     /\ exists before after,
         List.tl (PyStr.split PyStr.backslash S) = (before ++ EmptyString :: after)%list
         /\ Forall (fun p => p <> EmptyString /\ has_kind wanted p = false) before)
  /\ (Forall (fun p => p <> EmptyString) (List.tl (PyStr.split PyStr.backslash S)) ->
      exists r, find_field S wanted = Ok r).
Proof.
  unfold find_field. split.
  - intros e. destruct (PyStr.is_empty S); [discriminate|].
    destruct (_ && _); [discriminate|]. apply find_in_parts_raises.
  - intros H. destruct (PyStr.is_empty S); [now exists None|].
    destruct (_ && _); [now eexists|]. now apply find_in_parts_returns.
Qed.

Lemma find_field_raises_witness :
  exists r, find_field homerton_latin1_zero "X" = Ok r.
Proof.
  apply (proj2 (find_field_raises homerton_latin1_zero "X")).
  vm_compute. repeat constructor; discriminate.
Defined.

(** ** Applying a string the constructor accepts *)

Lemma parse_allow_empty (self self' : FontQualifiers) (S : string) (need : bool) :
  S <> EmptyString ->
  parse self S need false = (self', None) ->
  parse self S need true = (self', None).
Proof.
  intros Hne. unfold parse.
  assert (He : PyStr.is_empty S = false) by (destruct S; [congruence | reflexivity]).
  rewrite He. cbn [andb].
  apply (parse_parts_transfer need false need true (parse_part_allow_empty need)).
Qed.

Lemma reduce_is_overlay {A : Type} (current new : field A) :
  is_placeholder new = false -> reduce current new = overlay current new.
Proof. destruct new; [reflexivity | discriminate | reflexivity]. Qed.

(** X12. A string that the constructor accepts (without
    [allow_empty]) is accepted by [apply_fields], which then overwrites
    the attributes the string sets and keeps the others: it clears
    nothing. Applied to a new object, it gives the parsed object. *)
Theorem apply_fields_of_accepted_string (B q : FontQualifiers) (S : string)
  (need : bool) :
  init S need false = Ok q ->
  apply_fields B S need = (overlay_object B q, None)
  /\ apply_fields fresh S need = (q, None).
Proof.
  intros Hq.
  assert (Hne : S <> EmptyString) by (intros ->; discriminate).
  assert (Hnp : no_placeholder q).
  { apply (init_invariant need false no_placeholder) with (S := S);
      [intros seg self self'; apply parse_part_no_placeholder
      | repeat split | exact Hq]. }
  assert (Hq' : init S need true = Ok q).
  { revert Hq. unfold init.
    destruct (parse fresh S need false) as [q' [e|]] eqn:E; [discriminate|].
    intros [= ->]. now rewrite (parse_allow_empty fresh q S need Hne E). }
  assert (Hall : forall B', apply_fields B' S need = (overlay_object B' q, None)).
  { intros B'. rewrite (apply_fields_ok B' q S need Hq').
    destruct Hnp as (N1 & N2 & N3 & N4 & N5).
    unfold merged_object, overlay_object.
    now rewrite !reduce_is_overlay by assumption. }
  split; [apply Hall|]. rewrite Hall. destruct q as [fid fl enc el m].
  unfold overlay_object. simpl.
  now destruct fid, fl, enc, el, m.
Qed.

Lemma apply_fields_of_accepted_string_witness :
  apply_fields fresh homerton_latin1_zero false = (homerton_base, None).
Proof.
  apply (proj2 (apply_fields_of_accepted_string fresh homerton_base
                  homerton_latin1_zero false ltac:(vm_compute; reflexivity))).
Defined.

(** ** The integers behind a parsed matrix *)

Lemma existsb_false_forall (f : Z -> bool) (l : list Z) :
  existsb f l = false -> Forall (fun v => f v = false) l.
Proof.
  induction l as [|v l IH]; simpl; [constructor|].
  intros H. apply orb_false_iff in H. destruct H. constructor; auto.
Qed.

Lemma matrix_values_scaled (part : string) (matrix_parts : list string) (m : list float) :
  matrix_values part matrix_parts = Ok m -> scaled_matrix m.
Proof.
  unfold matrix_values.
  destruct (Nat.eqb_spec (List.length matrix_parts) 6) as [Hlen|]; [|discriminate].
  cbn [negb]. destruct (ints matrix_parts) as [values|] eqn:Hints; [|discriminate].
  destruct (existsb (fun value => two31 <=? value) values) eqn:Hbig; [discriminate|].
  destruct (existsb (fun value => value <=? - two31) values) eqn:Hsmall; [discriminate|].
  intros [= <-]. exists values. split; [reflexivity|].
  split; [now rewrite (ints_length _ _ Hints)|].
  apply existsb_false_forall in Hbig. apply existsb_false_forall in Hsmall.
  rewrite Forall_forall in *. intros v Hv.
  specialize (Hbig v Hv). specialize (Hsmall v Hv). simpl in *.
  rewrite two31_value in *. lia.
Qed.

Lemma parse_matrix_scaled (need : bool) (part : string) (m : list float) :
  parse_matrix need part = Ok m -> scaled_matrix m.
Proof.
  unfold parse_matrix. destruct (_ && _); [apply matrix_values_scaled|].
  destruct need; [discriminate | apply matrix_values_scaled].
Qed.

Lemma parse_part_scaled (need allow : bool) (seg : string)
  (self self' : FontQualifiers) :
  when_value scaled_matrix (matrix self) ->
  parse_part need allow seg self = (self', None) ->
  when_value scaled_matrix (matrix self').
Proof.
  unfold when_value. intros H. turn_cases;
    intros [= <-]; simpl; try assumption;
    intros ? Hv;
    first [ discriminate Hv
          | injection Hv as <-; eapply parse_matrix_scaled; eassumption ].
Qed.

(** X6. The matrix of a parsed object comes from six integers, each
    strictly between [-2^31] and [2^31]: its first four components are
    these integers divided by 65536.0 and its last two are divided by
    1000.0. *)
Theorem parsed_matrix_is_scaled (S : string) (need allow : bool)
  (q : FontQualifiers) (m : list float) :
  init S need allow = Ok q -> matrix q = Value m -> scaled_matrix m.
Proof.
  intros Hq Hm.
  apply (init_invariant need allow (fun q => when_value scaled_matrix (matrix q)))
    with (S := S) (q := q); [| |exact Hq|exact Hm].
  - intros seg self self'. apply parse_part_scaled.
  - intros a. discriminate.
Qed.

Lemma parsed_matrix_is_scaled_witness : scaled_matrix zero_matrix.
Proof.
  apply (parsed_matrix_is_scaled homerton_latin1_zero false false homerton_base).
  - vm_compute. reflexivity.
  - reflexivity.
Defined.

(** ** Reading back a written matrix *)

Lemma matrix_text_written (m : list float) (values : list Z) :
  written_integers m = Ok values -> matrix_text m = Ok (integers_text values).
Proof.
  unfold written_integers, matrix_text, bind.
  repeat match goal with
         | |- context [match matrix_item ?l ?i ?f with _ => _ end] =>
             destruct (matrix_item l i f); [|discriminate]
         end.
  intros [= <-]. reflexivity.
Qed.

Lemma written_integers_six (m : list float) (values : list Z) :
  written_integers m = Ok values -> List.length values = 6%nat.
Proof.
  unfold written_integers, bind.
  repeat match goal with
         | |- context [match matrix_item ?l ?i ?f with _ => _ end] =>
             destruct (matrix_item l i f); [|discriminate]
         end.
  now intros [= <-].
Qed.

Lemma str_not_empty (n : Z) : PyInt.str n <> EmptyString.
Proof. intros H. pose proof (int_str n) as Hn. rewrite H in Hn. discriminate. Qed.

Lemma lstrip_integers_text (values : list Z) :
  PyStr.lstrip PyStr.space (integers_text values) = integers_text values.
Proof.
  destruct values as [|v rest]; [reflexivity|]. cbn [integers_text].
  pose proof (str_not_empty v) as Hne. pose proof (proj1 (str_plain v)) as Hs.
  destruct (PyInt.str v) as [|c r]; [congruence|]. simpl in Hs.
  apply orb_false_iff in Hs. destruct Hs as [Hc _]. simpl. now rewrite Hc.
Qed.

Lemma split_integers_text (values : list Z) :
  PyStr.split PyStr.space (integers_text values)
  = (map PyInt.str values ++ [EmptyString])%list.
Proof.
  induction values as [|v rest IH]; [reflexivity|]. cbn [integers_text map app].
  rewrite split_append_sep by apply str_plain. now rewrite IH.
Qed.

Lemma ints_of_strs (values : list Z) : ints (map PyInt.str values) = Some values.
Proof.
  induction values as [|v rest IH]; [reflexivity|]. simpl.
  now rewrite int_str, IH.
Qed.

Lemma in_range_not_refused (values : list Z) :
  Forall (fun v => - 2 ^ 31 < v < 2 ^ 31) values ->
  existsb (fun value => two31 <=? value) values = false
  /\ existsb (fun value => value <=? - two31) values = false.
Proof.
  rewrite <- two31_value. induction 1 as [|v rest Hv _ [IH1 IH2]]; [now split|].
  cbn [existsb]. rewrite IH1, IH2. split; apply orb_false_iff; split; auto; lia.
Qed.

(** The text written for six integers in range is read as these
    integers, scaled, with or without the trailing space required. *)
Lemma parse_matrix_written (need : bool) (values : list Z) :
  List.length values = 6%nat ->
  Forall (fun v => - 2 ^ 31 < v < 2 ^ 31) values ->
  parse_matrix need (integers_text values) = Ok (scale 0 values).
Proof.
  intros Hlen Hrange. unfold parse_matrix.
  rewrite lstrip_integers_text, split_integers_text.
  assert (Hl : PyStr.last_part (map PyInt.str values ++ [EmptyString]) = EmptyString)
    by (unfold PyStr.last_part; apply last_last).
  rewrite Hl, removelast_last, length_app. cbn [List.length PyStr.is_empty].
  replace (List.length (map PyInt.str values) + 1 =? 0)%nat with false
    by (symmetry; apply Nat.eqb_neq; lia).
  cbn [negb andb]. unfold matrix_values.
  rewrite length_map, Hlen, ints_of_strs. cbn [Nat.eqb negb].
  destruct (in_range_not_refused values Hrange) as [-> ->]. reflexivity.
Qed.

Lemma integers_text_no_separator (values : list Z) :
  PyStr.contains PyStr.backslash (integers_text values) = false.
Proof.
  induction values as [|v rest IH]; [reflexivity|]. cbn [integers_text].
  rewrite contains_append, (proj2 (str_plain v)). simpl. exact IH.
Qed.

Lemma integers_text_not_empty (values : list Z) :
  List.length values = 6%nat -> integers_text values <> EmptyString.
Proof.
  destruct values as [|v rest]; [discriminate|]. intros _. cbn [integers_text].
  pose proof (str_not_empty v). destruct (PyInt.str v); [congruence | discriminate].
Qed.

Lemma parse_part_written_matrix (need allow : bool) (values : list Z)
  (self : FontQualifiers) :
  List.length values = 6%nat ->
  Forall (fun v => - 2 ^ 31 < v < 2 ^ 31) values ->
  parse_part need allow (String "M" (integers_text values)) self
  = (set_matrix (Value (scale 0 values)) self, None).
Proof.
  intros Hlen Hrange.
  rewrite parse_part_matrix by now apply integers_text_not_empty.
  now rewrite parse_matrix_written.
Qed.

Ltac read_back_matrix Hlen Hrange :=
  apply init_of_fields;
  [ repeat constructor;
    apply segment_no_separator;
    solve [ reflexivity
          | apply integers_text_no_separator
          | now apply local_text_no_separator
          | match goal with H : valid_identifier _ |- _ => apply H end ]
  | cbn [map parse_parts]; unfold segment_of; cbn [fst snd];
    repeat first [ rewrite parse_part_font_id by assumption
                 | rewrite parse_part_encoding by assumption
                 | rewrite parse_part_font_local
                 | rewrite parse_part_encoding_local
                 | rewrite (parse_part_written_matrix _ _ _ _ Hlen Hrange) ];
    reflexivity ].

(** X19. What writing and reading does to a matrix: when the six
    integers [font_string] writes lie strictly between [-2^31] and
    [2^31] and the territories have at most 4300 digits, the written
    string parses under any flags (its matrix text ends in a space), and
    the object read differs from the written one in the matrix only,
    which is these six integers scaled again. *)
Theorem font_string_matrix_read_back (q : FontQualifiers) (m : list float)
  (values : list Z) :
  no_placeholder q ->
  readable_texts q ->
  when_value writable_territory (fontlocal q) ->
  when_value writable_territory (encodinglocal q) ->
  matrix q = Value m ->
  written_integers m = Ok values ->
  Forall (fun v => - 2 ^ 31 < v < 2 ^ 31) values ->
  exists s,
    font_string q = Ok s
    /\ forall need allow,
        init s need allow = Ok (set_matrix (Value (scale 0 values)) q).
Proof.
  destruct q as [fid fl enc el mx]. unfold no_placeholder, readable_texts.
  cbn [matrix fontid fontlocal encoding encodinglocal].
  intros (N1 & N2 & N3 & N4 & _) (Hf & Hfl & He & Hel) _ _ -> Hw Hrange.
  pose proof (written_integers_six m values Hw) as Hlen.
  pose proof (matrix_text_written m values Hw) as Htext.
  destruct fid as [| |f]; [|discriminate|specialize (Hf f eq_refl)];
    (destruct fl as [| |l]; [|discriminate|specialize (Hfl l eq_refl)]);
    (destruct enc as [| |e]; [|discriminate|specialize (He e eq_refl)]);
    (destruct el as [| |l']; [|discriminate|specialize (Hel l' eq_refl)]);
    unfold font_string, matrix_entry, field_entry;
    cbn [matrix fontid fontlocal encoding encodinglocal];
    rewrite Htext; unfold bind;
    cbn -[String.concat List.map local_text integers_text];
    (eexists; split; [reflexivity|]);
    intros need allow; unfold set_matrix;
    cbn [matrix fontid fontlocal encoding encodinglocal];
    read_back_matrix Hlen Hrange.
Qed.

Lemma font_string_matrix_read_back_witness :
  exists s,
    font_string (mkFontQualifiers (Value "Homerton.Medium") (Value (1, "Homerton Medium"))
                                  (Value "Latin1") PyNone (Value zero_matrix)) = Ok s
    /\ forall need allow,
        init s need allow
        = Ok (mkFontQualifiers (Value "Homerton.Medium") (Value (1, "Homerton Medium"))
                               (Value "Latin1") PyNone
                               (Value (scale 0 [0; 0; 0; 0; 0; 0]))).
Proof.
  apply (font_string_matrix_read_back
           (mkFontQualifiers (Value "Homerton.Medium") (Value (1, "Homerton Medium"))
                             (Value "Latin1") PyNone (Value zero_matrix))
           zero_matrix [0; 0; 0; 0; 0; 0]).
  - unfold no_placeholder. simpl. tauto.
  - unfold readable_texts, when_value, valid_identifier, valid_local.
    cbn [fontid fontlocal encoding encodinglocal].
    refine (conj _ (conj _ (conj _ _))); intros ? Hv;
      first [ discriminate Hv
            | injection Hv as <-; first [split; reflexivity | reflexivity] ].
  - intros a Hv. injection Hv as <-. vm_compute. reflexivity.
  - intros a Hv. discriminate Hv.
  - reflexivity.
  - vm_compute. reflexivity.
  - repeat constructor.
Defined.

(** ** The first failure *)

(** X2. The constructor raises what the first segment that does not
    parse on its own raises: the segments before it are accepted, and
    nothing after it is looked at. *)
Theorem first_failure_is_raised (S : string) (need allow : bool)
  (before after : list string) (seg : string) (e : exn) :
  PyStr.is_empty S && allow = false ->
  segments S = (before ++ seg :: after)%list ->
  Forall (parses_alone need allow) before ->
  snd (parse_part need allow seg fresh) = Some e ->
  init S need allow = Raise e.
Proof.
  intros Hs Hsegs Hbefore Hseg. unfold init, parse. rewrite Hs, Hsegs.
  rewrite parse_parts_append.
  destruct (parse_parts_last need allow before Hbefore fresh) as [Hok _].
  destruct (parse_parts need allow before fresh) as [self1 r]. simpl in Hok. subst r.
  simpl. rewrite (parse_part_raise_independent need allow seg fresh self1) in Hseg.
  destruct (parse_part need allow seg self1) as [self2 r]. simpl in Hseg. subst r.
  reflexivity.
Qed.

Lemma first_failure_is_raised_witness :
  init (bs ++ "FSelwyn" ++ bs ++ "X" ++ bs ++ "M") false false
  = Raise (FontQualifiersBadStringError "Cannot parse qualifier 'X'").
Proof.
  apply (first_failure_is_raised _ false false ["FSelwyn"] ["M"] "X").
  - reflexivity.
  - reflexivity.
  - repeat constructor.
  - reflexivity.
Defined.
